(** * Single-Visit-Mosaic sequencer (drizzlepac): a shallow embedding

    The development follows the Python sources

      - [drizzlepac/hlautils/poller_utils.py]  (obset interpreter),
      - [drizzlepac/hapsequencer.py]           (sequencer, catalogs, WCS
                                                reconciliation),

    function by function.  Python strings are modelled by [string] (a
    character is a code point below 256), dictionaries whose insertion
    order is observable by association lists, sets and the file system by
    stdpp's [gset] and [gmap], exceptions and [sys.exit] by an explicit
    outcome type threaded together with the mutable world. *)

From Stdlib Require Import String Ascii List ZArith QArith Qminmax Qabs Bool Lia.
From Stdlib Require Import Permutation DecimalString DecimalNat Lqa.
From stdpp Require Import gmap strings.

Close Scope Q_scope.
Open Scope string_scope.
Import ListNotations.

(** ** Python string primitives *)

Module PyStr.

(** Code points that [str.lower] moves: A-Z and the Latin-1 capitals
    (U+00C0..U+00DE without the multiplication sign U+00D7). *)
Definition is_upper_code (n : N) : bool :=
  ((65 <=? n)%N && (n <=? 90)%N)
  || ((192 <=? n)%N && (n <=? 222)%N && negb (n =? 215)%N).

Definition lower_char (c : ascii) : ascii :=
  let n := N_of_ascii c in
  if is_upper_code n then ascii_of_N (n + 32) else c.

(** [s.lower()] *)
Fixpoint lower (s : string) : string :=
  match s with
  | EmptyString => EmptyString
  | String c s' => String (lower_char c) (lower s')
  end.

(** Code points that [str.upper] moves inside the ASCII range; keywords,
    detector names and WCS keys, the only strings the sources upper-case,
    are ASCII. *)
Definition upper_char (c : ascii) : ascii :=
  let n := N_of_ascii c in
  if ((97 <=? n)%N && (n <=? 122)%N) then ascii_of_N (n - 32) else c.

(** [s.upper()] *)
Fixpoint upper (s : string) : string :=
  match s with
  | EmptyString => EmptyString
  | String c s' => String (upper_char c) (upper s')
  end.

(** [s.split(sep)] for a one-character separator: never the empty list. *)
Fixpoint split (sep : ascii) (s : string) : list string :=
  match s with
  | EmptyString => [EmptyString]
  | String c s' =>
      if Ascii.eqb c sep then EmptyString :: split sep s'
      else match split sep s' with
           | h :: t => String c h :: t
           | [] => [String c EmptyString]
           end
  end.

(** [s.startswith(p)] *)
Definition startswith (p s : string) : bool := String.prefix p s.

(** [needle in hay] *)
Fixpoint contains (needle hay : string) : bool :=
  String.prefix needle hay
  || match hay with
     | EmptyString => false
     | String _ hay' => contains needle hay'
     end.

(** [s[i:j]] for [0 <= i <= j], clipped to the length of [s]. *)
Definition slice (i j : nat) (s : string) : string :=
  String.substring i (j - i) s.

(** [s.endswith(suf)] *)
Definition endswith (suf s : string) : bool :=
  let n := String.length s in
  let k := String.length suf in
  (k <=? n)%nat && String.eqb (String.substring (n - k) k s) suf.

(** [sep.join(l)] *)
Definition join (sep : string) (l : list string) : string :=
  String.concat sep l.

(** [s.find(needle)] reduced to what the sources test: [-1] or not. *)
Definition find_fails (needle s : string) : bool := negb (contains needle s).

(** Code points for which [str.isspace] holds (below 256). *)
Definition is_space (c : ascii) : bool :=
  let n := N_of_ascii c in
  ((9 <=? n)%N && (n <=? 13)%N) || ((28 <=? n)%N && (n <=? 32)%N)
  || (n =? 133)%N || (n =? 160)%N.

(** [s.rstrip()] *)
Fixpoint rstrip (s : string) : string :=
  match s with
  | EmptyString => EmptyString
  | String c s' =>
      match rstrip s' with
      | EmptyString => if is_space c then EmptyString else String c EmptyString
      | r => String c r
      end
  end.

(** [s.replace(old, new)] for a non-empty [old]: occurrences are
    replaced from the left and do not overlap; [skip] counts the
    characters of the occurrence still to be dropped. *)
Fixpoint replace_from (old new : string) (skip : nat) (s : string) : string :=
  match s with
  | EmptyString => EmptyString
  | String c s' =>
      match skip with
      | S k => replace_from old new k s'
      | O =>
          if String.prefix old s
          then new ++ replace_from old new (String.length old - 1) s'
          else String c (replace_from old new 0 s')
      end
  end.

Definition replace (old new s : string) : string := replace_from old new 0 s.

(** [s[:-k]] *)
Definition drop_last (k : nat) (s : string) : string :=
  String.substring 0 (String.length s - k) s.

(** [fnmatch.fnmatchcase(name, pat)] for patterns made of literal
    characters, [?] and [*]; the patterns of the sources have no
    bracket expression. *)
Fixpoint fnmatch (pat : string) : string -> bool :=
  match pat with
  | EmptyString =>
      fun name => match name with EmptyString => true | _ => false end
  | String c pat' =>
      if Ascii.eqb c "*" then
        fix star (name : string) : bool :=
          fnmatch pat' name
          || match name with
             | EmptyString => false
             | String _ name' => star name'
             end
      else if Ascii.eqb c "?" then
        fun name =>
          match name with
          | EmptyString => false
          | String _ name' => fnmatch pat' name'
          end
      else
        fun name =>
          match name with
          | EmptyString => false
          | String d name' => Ascii.eqb c d && fnmatch pat' name'
          end
  end.

(** [fnmatch.filter(names, pat)] *)
Definition fnmatch_filter (names : list string) (pat : string) : list string :=
  List.filter (fnmatch pat) names.

(** A decimal digit, what [\d] matches below code point 256. *)
Definition is_digit (c : ascii) : bool :=
  let n := N_of_ascii c in (48 <=? n)%N && (n <=? 57)%N.

(** ["{:02d}".format(k)] *)
Definition format02d (k : nat) : string :=
  let digits := NilEmpty.string_of_uint (Nat.to_uint k) in
  if (k <? 10)%nat then "0" ++ digits else digits.

End PyStr.

(** ** Exceptions and results *)

Module Py.

(** The exception classes the sources raise or handle.  [SystemExit] is
    what [sys.exit] raises; it derives from BaseException only, so a
    handler for [Exception] lets it through. *)
Inductive exn : Type :=
| SystemExit (code : Z)
| ValueError
| KeyError
| IndexError
| NameError
| OSError
| AttributeError
| RuntimeError (msg : string).

Definition is_Exception (e : exn) : bool :=
  match e with
  | SystemExit _ => false
  | _ => true
  end.

(** Outcome of an evaluation: a value or a raised exception. *)
Inductive res (A : Type) : Type :=
| Val (a : A)
| Exc (e : exn).
Arguments Val {A} a.
Arguments Exc {A} e.

Definition res_bind {A B} (r : res A) (k : A -> res B) : res B :=
  match r with
  | Val a => k a
  | Exc e => Exc e
  end.

#[global] Instance res_ret : MRet res := @Val.
#[global] Instance res_mbind : MBind res := fun A B k r => res_bind r k.

(** [l[k]] *)
Definition idx {A} (l : list A) (k : nat) : res A :=
  match nth_error l k with
  | Some x => Val x
  | None => Exc IndexError
  end.

(** A local name that may not be bound yet. *)
Definition bound {A} (v : option A) : res A :=
  match v with
  | Some x => Val x
  | None => Exc NameError
  end.

(** [d[k]] on an insertion-ordered dictionary. *)
Fixpoint dict_get {V} (k : string) (d : list (string * V)) : option V :=
  match d with
  | [] => None
  | (k', v) :: d' => if String.eqb k k' then Some v else dict_get k d'
  end.

(** [d[k] = v]: the value is replaced in place, a new key goes last. *)
Fixpoint dict_set {V} (k : string) (v : V) (d : list (string * V))
  : list (string * V) :=
  match d with
  | [] => [(k, v)]
  | (k', v') :: d' =>
      if String.eqb k k' then (k, v) :: d' else (k', v') :: dict_set k v d'
  end.

Definition dict_values {V} (d : list (string * V)) : list V := map snd d.

(** [l.index(x)]: the first position of [x], ValueError without one. *)
Fixpoint index_of (x : string) (l : list string) : res nat :=
  match l with
  | [] => Exc ValueError
  | y :: l' => if String.eqb x y then Val 0%nat else k ← index_of x l'; Val (S k)
  end.

(** [x in l] for a list of strings. *)
Definition str_in (x : string) (l : list string) : bool :=
  existsb (String.eqb x) l.

End Py.

(** ** poller_utils.determine_filter_name *)

Module PollerUtils.
Import PyStr Py.

Definition determine_filter_name (raw_filter : string) : string :=
  let raw_filter := lower raw_filter in
  let filter_list := split ";" raw_filter in
  let output_filter_list :=
    List.filter (fun filt => negb (contains "clear" filt)) filter_list in
  match output_filter_list with
  | [] => "clear"
  | first :: _ =>
      let output_filter_list :=
        if startswith "pol" first then rev output_filter_list
        else output_filter_list in
      join "-" output_filter_list
  end.

(** The rule as the specification words it: components of the raw
    string, dropped when they contain "clear" in any letter case, the
    survivors reversed when the first one is a polarizer, joined with
    "-", lower-cased last. *)
Definition resolve_spec (raw : string) : string :=
  let survivors :=
    List.filter (fun c => negb (contains "clear" (lower c))) (split ";" raw) in
  match survivors with
  | [] => "clear"
  | first :: _ =>
      lower (join "-" (if startswith "pol" (lower first)
                       then rev survivors else survivors))
  end.


(** *** parse_obset_tree *)

Definition SEP_STR (k : nat) : string := "single exposure product " ++ format02d k.
Definition FP_STR (k : nat) : string := "filter product " ++ format02d k.
Definition TDP_STR (k : nat) : string := "total detection product " ++ format02d k.

(** Modelled from the spec: the product classes of hlautils/product.py
    are not among the sources.  A product keeps the arguments it was
    constructed with; [add_member] and [add_product] append to the
    ordered, append-only member collections of the data model. *)
Record ExposureProduct : Type := mkExposureProduct {
  ep_args : list string
}.

Record FilterProduct : Type := mkFilterProduct {
  fp_args : list string;
  fp_edp_list : list ExposureProduct
}.

Record TotalProduct : Type := mkTotalProduct {
  tp_args : list string;
  tp_edp_list : list ExposureProduct;
  tp_fdp_list : list FilterProduct
}.

Definition fp_add_member (f : FilterProduct) (e : ExposureProduct) : FilterProduct :=
  mkFilterProduct (fp_args f) (fp_edp_list f ++ [e]).

Definition tp_add_member (t : TotalProduct) (e : ExposureProduct) : TotalProduct :=
  mkTotalProduct (tp_args t) (tp_edp_list t ++ [e]) (tp_fdp_list t).

Definition tp_add_product (t : TotalProduct) (f : FilterProduct) : TotalProduct :=
  mkTotalProduct (tp_args t) (tp_edp_list t) (tp_fdp_list t ++ [f]).

(** One value of [obset_products]. *)
Record prod_entry : Type := mkEntry {
  info : string;
  files : list string
}.

(** An exposure of the tree: the pair [(row_info, filename)]. *)
Definition tree_exposure : Type := (string * string)%type.
(** [filt_tree]: filter name and its exposures, in insertion order. *)
Definition filt_tree : Type := list (string * list tree_exposure).
(** [det_tree]: detector name and its filters, in insertion order. *)
Definition det_tree : Type := list (string * filt_tree).

(** The local variables of [parse_obset_tree]. *)
Record pstate : Type := mkPState {
  obset_products : gmap string prod_entry;
  prev_det_indx : nat;
  det_indx : nat;
  filt_indx : nat;
  sep_indx : nat;
  filetype : string;
  filt_obj : option FilterProduct;
  tdp_obj : option TotalProduct;
  tdp_list : list TotalProduct
}.

(** [filetype] as set from [filename[1]], the file name of the pair. *)
Definition filetype_of (name : string) : string :=
  if endswith "flt" (lower (slice 10 13 name)) then "drz" else "drc".

(** [d[k]] on [obset_products]. *)
Definition entry_of (d : gmap string prod_entry) (k : string) : res prod_entry :=
  match d !! k with
  | Some e => Val e
  | None => Exc KeyError
  end.

(** Body of [for filename in filter_files]. *)
Definition exposure_step (totprod fprod : string) (st : pstate)
    (filename : tree_exposure) : res pstate :=
  let '(filetype, prev_det_indx) :=
    if (det_indx st =? prev_det_indx st)%nat
    then (filetype st, prev_det_indx st)
    else (filetype_of (snd filename), det_indx st) in
  let prod_info := lower (fst filename ++ " " ++ filetype) in
  let sep := SEP_STR (sep_indx st) in
  let products :=
    <[sep := mkEntry prod_info [snd filename]]> (obset_products st) in
  let prod_list := split " " prod_info in
  p0 ← idx prod_list 0; p1 ← idx prod_list 1; p2 ← idx prod_list 2;
  p3 ← idx prod_list 3; p5 ← idx prod_list 5; p6 ← idx prod_list 6;
  let sep_obj := mkExposureProduct [p0; p1; p2; p3; snd filename; p5; p6] in
  fentry ← entry_of products fprod;
  '(products, filt_obj) ←
    (if String.eqb (info fentry) ""
     then p4 ← idx prod_list 4;
          Val (<[fprod := mkEntry prod_info (files fentry)]> products,
               Some (mkFilterProduct [p0; p1; p2; p3; p4; p5; p6] []))
     else Val (products, filt_obj st));
  filt ← bound filt_obj;
  let filt := fp_add_member filt sep_obj in
  fentry ← entry_of products fprod;
  let products :=
    <[fprod := mkEntry (info fentry) (files fentry ++ [snd filename])]> products in
  tentry ← entry_of products totprod;
  '(products, tdp_obj) ←
    (if String.eqb (info tentry) ""
     then p4 ← idx prod_list 4;
          Val (<[totprod := mkEntry prod_info (files tentry)]> products,
               Some (mkTotalProduct [p0; p1; p2; p3; p4; p6] [] []))
     else Val (products, tdp_obj st));
  tdp ← bound tdp_obj;
  let tdp := tp_add_member tdp sep_obj in
  tentry ← entry_of products totprod;
  let products :=
    <[totprod := mkEntry (info tentry) (files tentry ++ [snd filename])]> products in
  Val (mkPState products prev_det_indx (det_indx st) (filt_indx st)
         (sep_indx st + 1) filetype (Some filt) (Some tdp) (tdp_list st)).

(** A [for] loop whose body may raise. *)
Fixpoint for_each {S X} (body : S -> X -> res S) (xs : list X) (st : S) : res S :=
  match xs with
  | [] => Val st
  | x :: rest => st' ← body st x; for_each body rest st'
  end.

(** Body of [for filter_files in filt_tree.values()]. *)
Definition filter_step (totprod : string) (st : pstate)
    (filter_files : string * list tree_exposure) : res pstate :=
  let fprod := FP_STR (filt_indx st) in
  let st := mkPState (<[fprod := mkEntry "" []]> (obset_products st))
              (prev_det_indx st) (det_indx st) (filt_indx st + 1) (sep_indx st)
              (filetype st) (filt_obj st) (tdp_obj st) (tdp_list st) in
  st ← for_each (exposure_step totprod fprod) (snd filter_files) st;
  filt ← bound (filt_obj st);
  tdp ← bound (tdp_obj st);
  Val (mkPState (obset_products st) (prev_det_indx st) (det_indx st)
         (filt_indx st) (sep_indx st) (filetype st) (filt_obj st)
         (Some (tp_add_product tdp filt)) (tdp_list st)).

(** Body of [for filt_tree in det_tree.values()]. *)
Definition detector_step (st : pstate) (det : string * filt_tree) : res pstate :=
  let totprod := TDP_STR (det_indx st) in
  let st := mkPState (<[totprod := mkEntry "" []]> (obset_products st))
              (prev_det_indx st) (det_indx st + 1) (filt_indx st) (sep_indx st)
              (filetype st) (filt_obj st) (tdp_obj st) (tdp_list st) in
  st ← for_each (filter_step totprod) (snd det) st;
  tdp ← bound (tdp_obj st);
  Val (mkPState (obset_products st) (prev_det_indx st) (det_indx st)
         (filt_indx st) (sep_indx st) (filetype st) (filt_obj st)
         (tdp_obj st) (tdp_list st ++ [tdp])).

Definition parse_init : pstate :=
  mkPState ∅ 0 0 0 0 "" None None [].

Definition parse_obset_tree (tree : det_tree)
  : res (gmap string prod_entry * list TotalProduct) :=
  st ← for_each detector_step tree parse_init;
  Val (obset_products st, tdp_list st).

(** The exposures of one detector group, in the order they are visited. *)
Definition group_exposures (det : string * filt_tree) : list tree_exposure :=
  concat (map snd (snd det)).

(** Every exposure of the tree, in the order it is visited, paired with
    the exposure that [pick] selects in its detector group. *)
Definition exposures_with
    (pick : list tree_exposure -> option tree_exposure) (tree : det_tree)
  : list (tree_exposure * option tree_exposure) :=
  flat_map (fun det =>
    map (fun e => (e, pick (group_exposures det))) (group_exposures det)) tree.

Definition first_exposure (l : list tree_exposure) : option tree_exposure :=
  hd_error l.

Definition second_exposure (l : list tree_exposure) : option tree_exposure :=
  nth_error l 1.

(** "The file type of a detector group is inferred from the exposure
    that [pick] selects and applied to the info string of every single
    exposure product of the group." *)
Definition filetype_inferred_from
    (pick : list tree_exposure -> option tree_exposure) (tree : det_tree)
  : Prop :=
  forall products tdps, parse_obset_tree tree = Val (products, tdps) ->
  forall k e r, nth_error (exposures_with pick tree) k = Some (e, Some r) ->
    products !! SEP_STR k
    = Some (mkEntry (lower (fst e ++ " " ++ filetype_of (snd r))) [snd e]).

(** The file type in force while one exposure is processed. *)
Definition step_filetype (st : pstate) (e : tree_exposure) : string :=
  if (det_indx st =? prev_det_indx st)%nat then filetype st
  else filetype_of (snd e).

(** Loop invariant, detector side: [g] is the exposure that set the
    file type of the detector group being processed, if any did. *)
Definition gstate (st : pstate) (g : option tree_exposure) : Prop :=
  match g with
  | None => (prev_det_indx st < det_indx st)%nat
  | Some f => prev_det_indx st = det_indx st /\ filetype st = filetype_of (snd f)
  end.

(** Loop invariant, dictionary side: the single exposure products
    written so far, each with the exposure its file type came from. *)
Definition sep_inv (st : pstate)
    (done : list (tree_exposure * option tree_exposure)) : Prop :=
  sep_indx st = length done
  /\ forall k e r, nth_error done k = Some (e, Some r) ->
       obset_products st !! SEP_STR k
       = Some (mkEntry (lower (fst e ++ " " ++ filetype_of (snd r))) [snd e]).

Definition pick_first (g : option tree_exposure) (es : list tree_exposure)
  : option tree_exposure :=
  match g with
  | Some f => Some f
  | None => hd_error es
  end.

(** [info] as [if not obset_products[key]['info']] leaves it. *)
Definition set_info (old new : string) : string :=
  if String.eqb old "" then new else old.

(** The info string of a product whose first exposure is [gf], in a
    detector group whose first exposure is [g]; empty before there is
    a first exposure. *)
Definition info_for (gf g : option tree_exposure) : string :=
  match gf, g with
  | Some e1, Some r => lower (fst e1 ++ " " ++ filetype_of (snd r))
  | _, _ => ""
  end.

(** Loop invariant: the entry under [key] of the product being built. *)
Definition cur (st : pstate) (key : string) (gf g : option tree_exposure)
  : Prop :=
  exists files, obset_products st !! key = Some (mkEntry (info_for gf g) files).

Definition gf_ok (gf g : option tree_exposure) : Prop :=
  gf = None \/ g <> None.

Definition fp_item (gf g : option tree_exposure)
  : option (tree_exposure * tree_exposure) :=
  match gf, g with
  | Some e, Some r => Some (e, r)
  | _, _ => None
  end.

(** Every filter group of the tree, in the order it is visited: its
    first exposure with the first exposure of its detector group. *)
Definition filter_firsts (tree : det_tree)
  : list (option (tree_exposure * tree_exposure)) :=
  flat_map (fun det =>
    map (fun fg => fp_item (hd_error (snd fg))
                           (first_exposure (group_exposures det)))
        (snd det)) tree.

(** Every detector group of the tree with its first exposure. *)
Definition detector_firsts (tree : det_tree) : list (option tree_exposure) :=
  map (fun det => first_exposure (group_exposures det)) tree.

(** Loop invariants: the filter products and the total detection
    products written so far. *)
Definition fp_done (st : pstate)
    (donef : list (option (tree_exposure * tree_exposure))) : Prop :=
  filt_indx st = length donef
  /\ forall j e r, nth_error donef j = Some (Some (e, r)) ->
       info <$> obset_products st !! FP_STR j
       = Some (lower (fst e ++ " " ++ filetype_of (snd r))).

Definition td_done (st : pstate) (doned : list (option tree_exposure)) : Prop :=
  det_indx st = length doned
  /\ forall d r, nth_error doned d = Some (Some r) ->
       info <$> obset_products st !! TDP_STR d
       = Some (lower (fst r ++ " " ++ filetype_of (snd r))).

Fixpoint fp_items (g : option tree_exposure) (fgs : filt_tree)
  : list (option (tree_exposure * tree_exposure)) :=
  match fgs with
  | [] => []
  | fg :: rest =>
      let g' := pick_first g (snd fg) in
      fp_item (hd_error (snd fg)) g' :: fp_items g' rest
  end.

(** The tree of a visit with one detector, one filter and two
    exposures, the first calibrated as flt and the second as flc. *)
Definition mixed_tree : det_tree :=
  [("WFC", [("f606w",
      [("11665 06 ACS WFC JB4606C5Q F606W", "jb4606c5q_flt.fits");
       ("11665 06 ACS WFC JB4606C6Q F606W", "jb4606c6q_flc.fits")])])].

(** What [parse_obset_tree] returns on [mixed_tree]. *)
Definition mixed_products : gmap string prod_entry :=
  match parse_obset_tree mixed_tree with
  | Val (products, _) => products
  | Exc _ => ∅
  end.

Definition mixed_tdps : list TotalProduct :=
  match parse_obset_tree mixed_tree with
  | Val (_, tdps) => tdps
  | Exc _ => []
  end.

End PollerUtils.


(** ** hapsequencer: environment switches *)

Module EnvSwitch.
Import PyStr Py.

Definition envvar_bool_dict : list (string * bool) :=
  [("off", false); ("on", true); ("no", false); ("yes", true);
   ("false", false); ("true", true)].

Definition envvar_qa_svm : string := "SVM_QUALITY_TESTING".

Definition envvar_cat_svm : list (string * string) :=
  [("SVM_CATALOG_SBC", "on"); ("SVM_CATALOG_HRC", "on");
   ("SVM_CATALOG_WFC", "on"); ("SVM_CATALOG_UVIS", "on");
   ("SVM_CATALOG_IR", "on"); ("SVM_CATALOG_PC", "on")].

(** [envvar_cat_str.format(d)] *)
Definition envvar_cat_str (d : string) : string := "SVM_CATALOG_" ++ d.

(** [os.environ] is a finite map from names to values; the switch is
    [Some true], [Some false] or [None] (Python's None). *)
Definition _get_envvar_switch (environ : gmap string string)
    (envvar_name : string) (default : option string) : res (option bool) :=
  match environ !! envvar_name with
  | Some v =>
      let val := lower v in
      match dict_get val envvar_bool_dict with
      | None => Exc ValueError
      | Some b => Val (Some b)
      end
  | None =>
      match default with
      | None => Val None
      | Some "" => Val None
      | Some d =>
          match dict_get d envvar_bool_dict with
          | Some b => Val (Some b)
          | None => Exc KeyError
          end
      end
  end.

(** The dictionary comprehension of [run_hap_processing]: one switch per
    entry of [envvar_cat_svm], the first exception aborting it. *)
Fixpoint cat_switches_of (environ : gmap string string)
    (names : list (string * string)) : res (list (string * option bool)) :=
  match names with
  | [] => Val []
  | (sw, dflt) :: rest =>
      res_bind (_get_envvar_switch environ sw (Some dflt)) (fun b =>
      res_bind (cat_switches_of environ rest) (fun d =>
      Val ((sw, b) :: d)))
  end.

Definition cat_switches (environ : gmap string string)
  : res (list (string * option bool)) :=
  cat_switches_of environ envvar_cat_svm.

(** The guard of [create_catalog_products]:
    [catalog_switches[cat_sw_name] is False] skips the detector. *)
Definition catalog_skipped (catalog_switches : list (string * option bool))
    (detector : string) : res bool :=
  match dict_get (envvar_cat_str (upper detector)) catalog_switches with
  | None => Exc KeyError
  | Some (Some false) => Val true
  | Some _ => Val false
  end.

(** The guard [if qa_switch:] of [run_hap_processing]. *)
Definition qa_requested (environ : gmap string string) : res bool :=
  res_bind (_get_envvar_switch environ envvar_qa_svm None) (fun sw =>
  Val match sw with Some true => true | _ => false end).

End EnvSwitch.

(** ** hapsequencer.create_catalog_products: the rejection criterion *)

Module Catalogs.
Import PyStr Py.

(** The two attributes of an exposure product that the computation of
    the n1 exposure time reads; times are exact rationals. *)
Record exposure : Type := mkExposure {
  filters : string;
  exptime : Q
}.

(** One value of [n1_dict]: [{'n': ..., 'texptime': ...}]. *)
Record filter_tally : Type := mkTally {
  n : nat;
  texptime : Q
}.

(** The loop over [total_product_obj.edp_list] that fills [n1_dict]. *)
Fixpoint tally_exposures (edp_list : list exposure)
    (n1_dict : list (string * filter_tally)) : list (string * filter_tally) :=
  match edp_list with
  | [] => n1_dict
  | edp :: rest =>
      let n1_dict :=
        match dict_get (filters edp) n1_dict with
        | None => dict_set (filters edp) (mkTally 1 (exptime edp)) n1_dict
        | Some v =>
            dict_set (filters edp)
              (mkTally (n v + 1) (texptime v + exptime edp)%Q) n1_dict
        end in
      tally_exposures rest n1_dict
  end.

(** [max(x['n'] for x in filter_info)]: ValueError on an empty sequence. *)
Definition max_n (filter_info : list filter_tally) : res nat :=
  match filter_info with
  | [] => Exc ValueError
  | x :: rest => Val (fold_left (fun m y => Nat.max m (n y)) rest (n x))
  end.

(** [sum(values['texptime'] for values in filter_info if values['n'] > 1)] *)
Definition sum_multi (filter_info : list filter_tally) : Q :=
  fold_left (fun acc v => if (1 <? n v)%nat then (acc + texptime v)%Q else acc)
            filter_info 0%Q.

(** Loop state of the single-exposure branch:
    [(tot_exposure_time, n1_exposure_time, n1_factor)]. *)
Definition single_step (cr_residual : Q) (acc : Q * Q * Q)
    (values : filter_tally) : Q * Q * Q :=
  let '(tot, n1, factor) := acc in
  if (n values =? 1)%nat
  then ((tot + texptime values)%Q, (n1 + texptime values)%Q,
        (factor + cr_residual)%Q)
  else acc.

Definition Qltb (x y : Q) : bool := negb (Qle_bool y x).

(** The block of [create_catalog_products] from [cr_residual = ...] to
    the value handed to [verify_crthresh]; the result is
    [(tot_exposure_time, n1_exposure_time)]. *)
Definition n1_exposure_time_of (detector : string) (cr_residual : Q)
    (edp_list : list exposure) : res (Q * Q) :=
  let n1_exposure_time := 0%Q in
  let tot_exposure_time := 0%Q in
  let n1_factor := 0%Q in
  if str_in (upper detector) ["IR"; "SBC"]
  then Val (tot_exposure_time, n1_exposure_time)
  else
    let n1_dict := tally_exposures edp_list [] in
    let filter_info := dict_values n1_dict in
    res_bind (max_n filter_info) (fun m =>
    let '(tot_exposure_time, n1_exposure_time, n1_factor) :=
      if (1 <? m)%nat
      then (sum_multi filter_info, n1_exposure_time, n1_factor)
      else fold_left (single_step cr_residual) filter_info
             (tot_exposure_time, n1_exposure_time, n1_factor) in
    let n1_factor := Qmin n1_factor 1 in
    let n1_exposure_time :=
      if Qltb n1_exposure_time tot_exposure_time
      then (n1_exposure_time * n1_factor)%Q
      else n1_exposure_time in
    Val (tot_exposure_time, n1_exposure_time)).

(** *** Pruning of the total-product catalog *)

(** A table column by column.  The Flags columns are integer columns
    (the flag bits set by hla_flag_filter); a cell holds an integer or
    is masked. *)
Definition column : Type := string * list (option Z).
Definition table : Type := list column.

Definition colnames (t : table) : list string := map fst t.

(** [len(table)] *)
Definition nrows (t : table) : nat :=
  match t with
  | [] => 0
  | (_, cells) :: _ => length cells
  end.

Definition fill_value : Q := (-99999 # 10)%Q.

(** The fill value as an integer column holds it: the filled table
    keeps the dtype of every column, and the cast of -9999.9 to an
    integer truncates toward zero. *)
Definition fill_int : Z := Z.quot (Qnum fill_value) (Z.pos (Qden fill_value)).

(** [table.filled(-9999.9)] on one cell of an integer column. *)
Definition filled (c : option Z) : Z :=
  match c with
  | Some v => v
  | None => fill_int
  end.

(** [np.isclose(a, b)] with numpy's default tolerances:
    [|a - b| <= atol + rtol * |b|], [rtol = 1e-5], [atol = 1e-8]. *)
Definition isclose (a b : Q) : bool :=
  Qle_bool (Qabs (a - b))
           ((1 # 100000000) + (1 # 100000) * Qabs b)%Q.

(** [[colname for colname in all_columns if "Flags_" in colname]] *)
Definition flag_columns (t : table) : list column :=
  List.filter (fun col => contains "Flags_" (fst col)) t.

(** One entry of [flag_bitmasks], read at one row. *)
Definition flag_bit (flag_trim_value : Q) (c : option Z) : bool :=
  Qltb flag_trim_value (inject_Z (filled c))
  || isclose (inject_Z (filled c)) fill_value.

Definition cell_at (i : nat) (col : column) : option Z :=
  nth i (snd col) None.

(** [np.logical_and.reduce(flag_bitmasks)] at row [i]. *)
Definition flag_mask (flag_trim_value : Q) (t : table) (i : nat) : bool :=
  forallb (fun col => flag_bit flag_trim_value (cell_at i col))
          (flag_columns t).

(** [np.where(flag_mask == False)[0]] *)
Definition good_rows_index (flag_trim_value : Q) (t : table) : list nat :=
  List.filter (fun i => negb (flag_mask flag_trim_value t i))
              (seq 0 (nrows t)).

(** [table[good_rows_index]] *)
Definition take_rows (rows : list nat) (t : table) : table :=
  map (fun col => (fst col, map (fun i => cell_at i col) rows)) t.

Definition prune_table (flag_trim_value : Q) (t : table) : table :=
  take_rows (good_rows_index flag_trim_value t) t.

(** The two representations a catalog object carries. *)
Record catalog : Type := mkCatalog {
  sources : table;
  source_cat : table
}.

(** One iteration of the pruning loop over catalog types. *)
Definition prune_catalog (cat_type : string) (flag_trim_value : Q)
    (c : catalog) : catalog :=
  if String.eqb cat_type "aperture"
  then mkCatalog (prune_table flag_trim_value (sources c)) (source_cat c)
  else mkCatalog (sources c) (prune_table flag_trim_value (source_cat c)).

(** The loop [for cat_type in total_product_catalogs.catalogs.keys()]. *)
Definition prune_catalogs (flag_trim_value : Q)
    (catalogs : list (string * catalog)) : list (string * catalog) :=
  map (fun kc => (fst kc, prune_catalog (fst kc) flag_trim_value (snd kc)))
      catalogs.

(** The rows of the documented example and a third one: Flags_F606W
    is 6, 2, 6 and Flags_F814W is masked, masked, 9; the first column
    is no flag column. *)
Definition example_table : table :=
  [("X-Center", [Some 1; Some 2; Some 3]%Z);
   ("Flags_F606W", [Some 6; Some 2; Some 6]%Z);
   ("Flags_F814W", [None; None; Some 9%Z])].

Definition other_table : table :=
  [("Flags_F606W", [Some 7]%Z)].

Definition example_catalogs : list (string * catalog) :=
  [("aperture", mkCatalog example_table other_table);
   ("segment", mkCatalog other_table example_table)].

End Catalogs.

(** ** The world the sequencer acts on *)

Module World.
Import PyStr Py.

(** A FITS header: keyword to the text of its value.  Keywords are
    looked up without regard to letter case or trailing blanks. *)
Definition header : Type := gmap string string.

Definition norm_keyword (k : string) : string := upper (rstrip k).

Definition hdr_get (k : string) (h : header) : res string :=
  match h !! norm_keyword k with
  | Some v => Val v
  | None => Exc KeyError
  end.

Definition hdr_mem (k : string) (h : header) : bool :=
  bool_decide (is_Some (h !! norm_keyword k)).

Definition hdr_set (k v : string) (h : header) : header :=
  <[norm_keyword k := v]> h.

Definition hdr_del (k : string) (h : header) : header :=
  delete (norm_keyword k) h.

(** One header-data unit; the data array plays no part here. *)
Record hdu : Type := mkHdu {
  extname : string;
  extver : nat;
  hdr : header
}.

(** An open [HDUList]; unit 0 is the primary one. *)
Definition fits_file : Type := list hdu.

Definition is_ext (name : string) (ver : nat) (u : hdu) : bool :=
  String.eqb (upper (extname u)) (upper name) && (extver u =? ver)%nat.

(** [hdul[(name, ver)].header] *)
Definition ext_header (name : string) (ver : nat) (f : fits_file) : res header :=
  match List.find (is_ext name ver) f with
  | Some u => Val (hdr u)
  | None => Exc KeyError
  end.

(** [hdul[i].header] *)
Definition idx_header (i : nat) (f : fits_file) : res header :=
  u ← idx f i; Val (hdr u).

(** The header of the first unit called [(name, ver)] replaced by [h]. *)
Fixpoint set_ext_header (name : string) (ver : nat) (h : header)
    (f : fits_file) : fits_file :=
  match f with
  | [] => []
  | u :: f' =>
      if is_ext name ver u then mkHdu (extname u) (extver u) h :: f'
      else u :: set_ext_header name ver h f'
  end.

(** [countExtn(hdul, 'SCI')] of stsci.tools. *)
Definition countExtn (f : fits_file) (name : string) : nat :=
  length (List.filter (fun u => String.eqb (upper (extname u)) (upper name)) f).

(** What the collaborating libraries did to the files, in order. *)
Inductive call : Type :=
| CallUpdatewcs (filename : string)
| CallArchive (filename hdrname wcsname wcskey : string)
| CallRestore (filename hdrname : string)
| CallAlign (drizzle_filename : string)
| CallSkycell (filename : string)
| CallDrizzle
| CallCatalogs
| CallQuality
| CallAppendTrl (trl_filename : string)
| CallDrizpars (drizzle_filename : string).

(** The FITS files and the text files of the working directory, and
    the log of collaborator calls. *)
Record world : Type := mkWorld {
  disk : gmap string fits_file;
  texts : gmap string (list string);
  calls : list call
}.

(** A computation: it reads and changes the world and returns a value
    or raises; what it did before raising stays done. *)
Definition M (A : Type) : Type := world -> res A * world.

#[global] Instance M_ret : MRet M := fun A a w => (Val a, w).
#[global] Instance M_bind : MBind M := fun A B k m w =>
  match m w with
  | (Val a, w') => k a w'
  | (Exc e, w') => (Exc e, w')
  end.

Definition raise {A} (e : exn) : M A := fun w => (Exc e, w).

(** A result that does not depend on the world. *)
Definition lift {A} (r : res A) : M A := fun w => (r, w).

(** [sys.exit(code)] *)
Definition sys_exit {A} (code : Z) : M A := raise (SystemExit code).

(** [try: m  except <handled>: h]; [handler e] is the handler chosen
    for the exception [e], if a clause matches it. *)
Definition try_except {A} (m : M A) (handler : exn -> option (M A)) : M A :=
  fun w =>
    match m w with
    | (Val a, w') => (Val a, w')
    | (Exc e, w') =>
        match handler e with
        | Some h => h w'
        | None => (Exc e, w')
        end
    end.

Definition on_OSError {A} (h : M A) (e : exn) : option (M A) :=
  match e with
  | OSError => Some h
  | _ => None
  end.

(** [fits.open(filename)] and the other readers of a file by name. *)
Definition read_fits (filename : string) : M fits_file := fun w =>
  match disk w !! filename with
  | Some f => (Val f, w)
  | None => (Exc OSError, w)
  end.

(** Closing or flushing a file opened for update. *)
Definition write_fits (filename : string) (f : fits_file) : M unit := fun w =>
  (Val tt, mkWorld (<[filename := f]> (disk w)) (texts w) (calls w)).

(** [os.remove(filename)] on an image. *)
Definition os_remove (filename : string) : M unit := fun w =>
  match disk w !! filename with
  | Some _ => (Val tt, mkWorld (delete filename (disk w)) (texts w) (calls w))
  | None => (Exc OSError, w)
  end.

Definition log_call (c : call) : M unit := fun w =>
  (Val tt, mkWorld (disk w) (texts w) (calls w ++ [c])).

(** A [for] loop whose body acts on the world. *)
Fixpoint for_eachM {S X} (body : S -> X -> M S) (xs : list X) (st : S) : M S :=
  match xs with
  | [] => mret st
  | x :: rest => st' ← body st x; for_eachM body rest st'
  end.

Fixpoint iterM {X} (body : X -> M unit) (xs : list X) : M unit :=
  match xs with
  | [] => mret tt
  | x :: rest => body x;; iterM body rest
  end.

End World.

(** ** Products as the sequencer sees them *)

Module Products.

(** Modelled from the spec: the product classes of haputils/product.py
    are not among the sources; these are the attributes the sequencer
    reads.  An exposure product is one input image. *)
Record edp : Type := mkEdp {
  full_filename : string;
  trl_filename : string;
  filters : string;
  exposure_name : string;
  drizzle_filename : string
}.

(** A filter product and its member exposures. *)
Record fdp : Type := mkFdp {
  fdp_filters : string;
  fdp_drizzle_filename : string;
  fdp_trl_filename : string;
  fdp_edp_list : list edp
}.

(** A total product: direct exposures, filter products and the
    Grism/Prism exposures of one detector. *)
Record tdp : Type := mkTdp {
  detector : string;
  manifest_name : string;
  tdp_trl_filename : string;
  tdp_drizzle_filename : string;
  edp_list : list edp;
  fdp_list : list fdp;
  grism_edp_list : list edp
}.

Definition set_grism_edp_list (t : tdp) (l : list edp) : tdp :=
  mkTdp (detector t) (manifest_name t) (tdp_trl_filename t)
        (tdp_drizzle_filename t) (edp_list t) (fdp_list t) l.

Definition set_edp_list (t : tdp) (l : list edp) : tdp :=
  mkTdp (detector t) (manifest_name t) (tdp_trl_filename t)
        (tdp_drizzle_filename t) l (fdp_list t) (grism_edp_list t).

Definition set_fdp_list (t : tdp) (l : list fdp) : tdp :=
  mkTdp (detector t) (manifest_name t) (tdp_trl_filename t)
        (tdp_drizzle_filename t) (edp_list t) l (grism_edp_list t).

End Products.

(** ** hapsequencer: WCS reconciliation *)

Module Wcs.
Import PyStr Py World Products.

(** The functions of stwcs, astropy, drizzlepac.util and [re] that the
    reconciliation calls; they are parameters of the model. *)
Record Collab : Type := mkCollab {
  (** [altwcs.wcsnames(filename, ext=1, include_primary=b)], an ordered
      dictionary from WCS key to WCSNAME; [None] when the argument is
      left out. *)
  wcsnames : fits_file -> option bool -> list (string * string);
  (** [headerlet.get_headerlet_kw_names(filename, kw=kw)] *)
  get_headerlet_kw_names : fits_file -> string -> list string;
  (** [altwcs.getKeyFromName(header, wcsname)]; [None] is Python's. *)
  getKeyFromName : header -> string -> option string;
  (** [headerlet.find_headerlet_HDUs(filename, hdrname=hdrname)] *)
  find_headerlet_HDUs : fits_file -> string -> list nat;
  (** [headerlet.archive_as_headerlet(filename, hdrname, wcsname, wcskey)] *)
  archive_as_headerlet :
    fits_file -> string -> string -> string -> res fits_file;
  (** [headerlet.restore_from_headerlet(filename, hdrname, archive=True)] *)
  restore_from_headerlet : fits_file -> string -> res fits_file;
  (** [updatewcs.updatewcs(filename, use_db=True)] *)
  updatewcs : fits_file -> res fits_file;
  (** [updatehdr.interpret_wcsname_type(wcsname)] *)
  interpret_wcsname_type : string -> res string;
  (** [util.count_sci_extensions(filename)] *)
  count_sci_extensions : fits_file -> nat * string;
  (** [re.compile(p)], then [pattern.match(s) is not None] *)
  re_compile : string -> res (string -> bool)
}.

Section Reconciliation.
Context (C : Collab).

(** *** collect_wcs_names *)

(** The local variables of [collect_wcs_names]. *)
Record collected : Type := mkCollected {
  image_wcs_set : gset string;
  skip_image_list : list string;
  exist_image_set : bool;
  image_dict : list (string * list string);
  keyword_wcs_names_dict : list (string * list string)
}.

Definition collect_init : collected := mkCollected ∅ [] false [] [].

(** [keyword_wcs_names + headerlet_wcs_names] of one image. *)
Definition all_wcs_names_of (f : fits_file) : list string :=
  (map snd (wcsnames C f None) ++ get_headerlet_kw_names C f "WCSNAME")%list.

(** The set after one more image with the names [names]. *)
Definition next_wcs_set (st : collected) (names : list string) : gset string :=
  if exist_image_set st then image_wcs_set st ∩ list_to_set names
  else list_to_set names.

(** Body of [for edp in edp_list]. *)
Definition collect_step (image_type : string) (st : collected) (e : edp)
  : M collected :=
  let filename := full_filename e in
  f ← read_fits filename;
  let keyword_wcs_names := map snd (wcsnames C f None) in
  let all_wcs_names := all_wcs_names_of f in
  let kdict := dict_set filename keyword_wcs_names (keyword_wcs_names_dict st) in
  let idict := dict_set filename all_wcs_names (image_dict st) in
  match all_wcs_names with
  | _ :: _ =>
      let image_wcs_set := next_wcs_set st all_wcs_names in
      if bool_decide (image_wcs_set = ∅) then sys_exit 1
      else mret (mkCollected image_wcs_set (skip_image_list st) true idict kdict)
  | [] =>
      let skip := (skip_image_list st ++ [filename])%list in
      (if String.eqb image_type "GRISM"
       then try_except (os_remove filename) (on_OSError (mret tt))
       else mret tt);;
      mret (mkCollected (image_wcs_set st) skip (exist_image_set st) idict kdict)
  end.

Definition collect_wcs_names (edp_list : list edp) (image_type : string)
  : M collected :=
  for_eachM (collect_step image_type) edp_list collect_init.

(** *** The preference loop of update_wcs_in_visit *)

Definition wcs_preference : list string :=
  ["IDC_?????????-GSC240"; "IDC_?????????"].

(** The loop [for wcs_item in wcs_preference] with its [break]; the
    empty string when no pattern matches. *)
Fixpoint select_wcsname (preference : list string) (wcs_set : gset string)
  : string :=
  match preference with
  | [] => ""
  | wcs_item :: rest =>
      match fnmatch_filter (elements wcs_set) wcs_item with
      | m :: _ => m
      | [] => select_wcsname rest wcs_set
      end
  end.

(** *** _verify_sci_hdrname *)

(** Body of [for ext in range(1, numext + 1)]. *)
Definition verify_ext (filename : string) (fhdu : fits_file) (ext : nat)
  : res fits_file :=
  scihdr ← ext_header "sci" ext fhdu;
  blank ← (if hdr_mem "hdrname" scihdr
           then v ← hdr_get "hdrname" scihdr; Val (String.eqb (rstrip v) "")
           else Val true);
  if (blank : bool) then
    wcsname ← hdr_get "wcsname" scihdr;
    let hdrname := replace ".fits" "" filename ++ "_" ++ wcsname in
    let hfilename := hdrname ++ "_hlet.fits" in
    Val (set_ext_header "sci" ext (hdr_set "hdrname" hfilename scihdr) fhdu)
  else Val fhdu.

(** Modelled from the spec: [proc_utils._process_input] is not among the
    sources; given a file name it opens the file for update, so the
    naming keyword that is synthesised is stored when the file is
    closed. *)
Definition _verify_sci_hdrname (filename : string) : M unit :=
  fhdu ← read_fits filename;
  let numext := countExtn fhdu "SCI" in
  fhdu' ← lift (PollerUtils.for_each (verify_ext filename) (seq 1 numext) fhdu);
  write_fits filename fhdu'.

(** Body of the loop over the direct images in [update_wcs_in_visit]. *)
Definition refresh_direct (e : edp) : M unit :=
  let filename := full_filename e in
  hdu ← read_fits filename;
  hdr0 ← lift (idx_header 0 hdu);
  drizcorr ← lift (hdr_get "DRIZCORR" hdr0);
  (if String.eqb drizcorr "OMIT"
   then log_call (CallUpdatewcs filename);;
        f ← read_fits filename;
        f' ← lift (updatewcs C f);
        write_fits filename f'
   else mret tt);;
  _verify_sci_hdrname filename.

(** *** reset_keywords_apriori *)

Definition keys_to_delete : list string :=
  ["NMATCHES"; "RMS_RA"; "RMS_DEC"; "FITGEOM"; "CRDER1"; "CRDER2"].

(** [len(wcsname_list) == 2 and
     wcsname_list[1].upper().startswith(('GSC', 'HSC', 'GAIA'))] *)
Definition is_apriori (active_wcsname : string) : bool :=
  let wcsname_list := split "-" active_wcsname in
  (length wcsname_list =? 2)%nat
  && match nth_error wcsname_list 1 with
     | Some s =>
         let u := upper s in
         startswith "GSC" u || startswith "HSC" u || startswith "GAIA" u
     | None => false
     end.

(** Body of [for ext in extname_list]; [x] ranges over [range(num_sci)]. *)
Definition reset_ext (extname : string) (hdu : fits_file) (x : nat)
  : res fits_file :=
  h ← ext_header extname (x + 1) hdu;
  active_wcsname ← hdr_get "WCSNAME" h;
  if is_apriori active_wcsname then
    h ← match interpret_wcsname_type C active_wcsname with
        | Val t => Val (hdr_set "WCSTYPE" t h)
        | Exc KeyError => Val h
        | Exc e => Exc e
        end;
    let h := fold_left (fun h key => if hdr_mem key h then hdr_del key h else h)
                       keys_to_delete h in
    Val (set_ext_header extname (x + 1) h hdu)
  else Val hdu.

Definition reset_keywords_apriori (filename : string) : M unit :=
  f ← read_fits filename;
  let '(num_sci, extname) := count_sci_extensions C f in
  hdu ← read_fits filename;
  hdu' ← lift (PollerUtils.for_each (reset_ext extname) (seq 0 num_sci) hdu);
  write_fits filename hdu'.

(** *** archive_alternate_wcs *)

(** [wcs_patterns]: each headerlet WCS name with its compiled pattern
    [wcsname + "-[\d]"]. *)
Fixpoint compile_patterns (headerlet_wcsnames : list string)
  : res (list (string * (string -> bool))) :=
  match headerlet_wcsnames with
  | [] => Val []
  | wcsname :: rest =>
      p ← re_compile C (wcsname ++ "-[\d]");
      ps ← compile_patterns rest;
      Val ((wcsname, p) :: ps)
  end.

(** The WCS name after the loop that looks for duplicated names. *)
Definition dedup_wcsname (wcs_patterns : list (string * (string -> bool)))
    (wcsname : string) : string :=
  match List.find (fun p => snd p wcsname) wcs_patterns with
  | Some (pattern_wcs, _) => pattern_wcs
  | None => wcsname
  end.

(** [headerlet_hdrnames[headerlet_wcsnames.index(wcsname)]] succeeds. *)
Definition has_headerlet (headerlet_wcsnames headerlet_hdrnames : list string)
    (wcsname : string) : bool :=
  match (i ← index_of wcsname headerlet_wcsnames; idx headerlet_hdrnames i) with
  | Val _ => true
  | Exc _ => false
  end.

(** Body of [for wkey, wcsname in wcs_key_dict.items()]. *)
Definition archive_step (filename : string) (header : header)
    (headerlet_wcsnames headerlet_hdrnames : list string)
    (wcs_patterns : list (string * (string -> bool)))
    (kv : string * string) : M unit :=
  let '(wkey, wcsname) := kv in
  if startswith "O" (upper wkey) then mret tt
  else
    let wcsname := dedup_wcsname wcs_patterns wcsname in
    hdrname ← lift match hdr_get ("HDRNAME" ++ upper wkey) header with
                   | Val v => Val v
                   | Exc KeyError =>
                       fn ← hdr_get "FILENAME" header;
                       Val (drop_last 5 fn ++ "_" ++ wcsname ++ "-hlet.fits")
                   | Exc e => Exc e
                   end;
    if has_headerlet headerlet_wcsnames headerlet_hdrnames wcsname
    then mret tt
    else log_call (CallArchive filename hdrname wcsname wkey);;
         f ← read_fits filename;
         f' ← lift (archive_as_headerlet C f hdrname wcsname wkey);
         write_fits filename f'.

Definition archive_alternate_wcs (filename : string) : M unit :=
  f ← read_fits filename;
  let wcs_key_dict := wcsnames C f (Some true) in
  header ← lift (idx_header 0 f);
  let headerlet_wcsnames := get_headerlet_kw_names C f "WCSNAME" in
  let headerlet_hdrnames := get_headerlet_kw_names C f "HDRNAME" in
  wcs_patterns ← lift (compile_patterns headerlet_wcsnames);
  iterM (archive_step filename header headerlet_wcsnames headerlet_hdrnames
           wcs_patterns) wcs_key_dict.

(** *** update_active_wcs *)

(** Body of [for sciext in range(1, num_sci_ext+1)]. *)
Definition nmatches_step (extensions : list nat) (extname idcscale : string)
    (fhdu : fits_file) (sciext : nat) : res fits_file :=
  e0 ← idx extensions 0;
  hlet ← idx_header e0 fhdu;
  nm ← (if hdr_mem "nmatch" hlet then hdr_get "nmatch" hlet else Val "0");
  scihdr ← ext_header extname sciext fhdu;
  let scihdr := hdr_set "nmatches" nm scihdr in
  let scihdr := if hdr_mem "idcscale" scihdr then scihdr
                else hdr_set "idcscale" idcscale scihdr in
  Val (set_ext_header extname sciext scihdr fhdu).

(** The branch [if key != ' '] of [update_active_wcs]. *)
Definition restore_active (filename wcsname : string) (num_sci_ext : nat)
    (extname idcscale : string) : M unit :=
  f ← read_fits filename;
  let headerlet_hdrnames := get_headerlet_kw_names C f "HDRNAME" in
  let headerlet_wcsnames := get_headerlet_kw_names C f "WCSNAME" in
  i ← lift (index_of wcsname headerlet_wcsnames);
  hdrname ← lift (idx headerlet_hdrnames i);
  let extensions := find_headerlet_HDUs C f hdrname in
  try_except
    (log_call (CallRestore filename hdrname);;
     f ← read_fits filename;
     f' ← lift (restore_from_headerlet C f hdrname);
     write_fits filename f';;
     fhdu ← read_fits filename;
     fhdu' ← lift (PollerUtils.for_each
                     (nmatches_step extensions extname idcscale)
                     (seq 1 num_sci_ext) fhdu);
     write_fits filename fhdu';;
     reset_keywords_apriori filename)
    (fun _ => Some (mret tt)).

Definition update_active_wcs (filename wcsname : string) : M unit :=
  f ← read_fits filename;
  let '(num_sci_ext, extname) := count_sci_extensions C f in
  hdu ← read_fits filename;
  sci1 ← lift (ext_header "SCI" 1 hdu);
  idcscale ← lift (hdr_get "idcscale" sci1);
  let key := getKeyFromName C sci1 wcsname in
  archive_alternate_wcs filename;;
  match key with
  | Some " " => mret tt
  | _ => restore_active filename wcsname num_sci_ext extname idcscale
  end.

(** *** update_wcs_in_visit *)

(** The loop over the Grism/Prism images that resets the primary WCS. *)
Definition set_grism_wcs (final_wcsname : string) (skip_grism_list : list string)
    (grism_product_list : list string) (g_edp : edp) : M (list string) :=
  let filename := full_filename g_edp in
  if str_in filename skip_grism_list then mret grism_product_list
  else update_active_wcs filename final_wcsname;;
       mret (grism_product_list ++ [filename; trl_filename g_edp])%list.

(** The loop over the direct images that resets the primary WCS. *)
Definition set_direct_wcs (final_wcsname : string) (skip_direct_list : list string)
    (e : edp) : M unit :=
  let filename := full_filename e in
  if str_in filename skip_direct_list then mret tt
  else update_active_wcs filename final_wcsname.

(** The branch taken when no preferred name is among the Grism/Prism
    names: delete the images, empty the list and return, or exit when
    a deletion fails. *)
Definition delete_all_grism (t : tdp) : M (list string * tdp) :=
  r ← try_except
        (iterM (fun image_file => os_remove (full_filename image_file))
               (grism_edp_list t);;
         mret (Some ([], set_grism_edp_list t [])))
        (on_OSError (mret None));
  match r with
  | Some v => mret v
  | None => sys_exit 1
  end.

(** The function returns [grism_product_list]; the total product, which
    Python changes in place, is returned with it. *)
Definition update_wcs_in_visit (t : tdp) : M (list string * tdp) :=
  g ← collect_wcs_names (grism_edp_list t) "GRISM";
  let grism_wcs_set := image_wcs_set g in
  let grism_wcsname := select_wcsname wcs_preference grism_wcs_set in
  if String.eqb grism_wcsname "" then delete_all_grism t
  else
    iterM refresh_direct (edp_list t);;
    d ← collect_wcs_names (edp_list t) "DIRECT";
    let direct_wcs_set := image_wcs_set d in
    let is_disjoint := bool_decide (grism_wcs_set ## direct_wcs_set) in
    if negb is_disjoint then
      let grism_wcs_set := grism_wcs_set ∩ direct_wcs_set in
      let final_wcsname := select_wcsname wcs_preference grism_wcs_set in
      if negb (String.eqb final_wcsname "") then
        grism_product_list ←
          for_eachM (set_grism_wcs final_wcsname (skip_image_list g))
                    (grism_edp_list t) [];
        iterM (set_direct_wcs final_wcsname (skip_image_list d)) (edp_list t);;
        mret (grism_product_list, t)
      else mret ([], t)
    else mret ([], t).

End Reconciliation.

(** *** delete_ramp_exposures *)

(** The first loop: objects are popped from the end of [obj_list];
    [temp] receives the ones that stay, the names of the others are
    collected when the list holds exposures. *)
Fixpoint pop_all {X} (filters_of : X -> string) (names_of : X -> list string)
    (type_of_list : string) (reversed : list X)
    (temp : list X) (ramp_filenames_list : list string)
  : list X * list string :=
  match reversed with
  | [] => (temp, ramp_filenames_list)
  | obj :: rest =>
      if find_fails "fr" (lower (filters_of obj))
      then pop_all filters_of names_of type_of_list rest
             (temp ++ [obj]) ramp_filenames_list
      else if String.eqb type_of_list "EXPOSURE"
      then pop_all filters_of names_of type_of_list rest temp
             (ramp_filenames_list ++ names_of obj)
      else pop_all filters_of names_of type_of_list rest temp
             ramp_filenames_list
  end.

(** The result is the list as it is left in place and the list of
    names returned; the second loop pops [temp] back into [obj_list]. *)
Definition delete_ramp_exposures {X} (filters_of : X -> string)
    (names_of : X -> list string) (obj_list : list X) (type_of_list : string)
  : list X * list string :=
  let '(temp, ramp_filenames_list) :=
    pop_all filters_of names_of type_of_list (rev obj_list) [] [] in
  (rev temp, ramp_filenames_list).

Definition edp_names (e : edp) : list string :=
  [full_filename e; trl_filename e].

End Wcs.

(** ** hapsequencer.run_hap_processing *)

Module Sequencer.
Import PyStr Py World Products Wcs EnvSwitch.

(** [input_filename]: a string, a list of strings, or anything else. *)
Inductive input : Type :=
| InStr (name : string)
| InList (names : list string)
| InOther.

(** The value the function returns: an integer, or the SystemExit
    instance caught by the handler for BaseException. *)
Inductive retval : Type :=
| RetInt (z : Z)
| RetExit (code : Z).

(** The collaborators of the sequencer; they are parameters of the
    model.  The three steps defined in hapsequencer.py itself
    (alignment, drizzling, catalogs) drive engines outside the
    repository and are taken as wholes. *)
Record Engines : Type := mkEngines {
  (** [poller_utils.interpret_obset_input]: the keys of
      [obs_info_dict] and [total_obj_list]. *)
  interpret_obset_input : input -> M (list string * list tdp);
  (** [glob.glob(f"{exposure_name}*_manifest.txt")] *)
  glob_manifests : string -> world -> list string;
  (** The HapConfig objects and header attributes attached to a total
      product, its filter products and its exposures. *)
  attach_config : tdp -> M tdp;
  run_align_to_gaia : tdp -> M (list string);
  add_skycell_to_header : string -> M unit;
  create_drizzle_products : list tdp -> M (list string);
  create_catalog_products :
    list tdp -> list (string * option bool) -> M (list string);
  pickle_dump : list tdp -> M unit;
  run_quality_analysis : list tdp -> M unit;
  (** The primary header of the first input exposure, as read in the
      [finally] block. *)
  getheader_first : input -> M header;
  append_trl_file : string -> string -> M unit;
  update_drizpars : tdp -> M unit;
  (** [proc_utils.build_logname(input_filename)] *)
  logname : string;
  (** [analyze.Ret_code.NO_VIABLE_DATA.value] *)
  NO_VIABLE_DATA : Z
}.

(** The variables of [run_hap_processing] that the [finally] block
    reads. *)
Record locals : Type := mkLocals {
  total_obj_list : list tdp;
  grism_product_list : list string;
  ramp_product_list : list string;
  manifest_name_v : string;
  found_data : bool;
  product_list : list string;
  mfile_list : list string
}.

Definition locals_init : locals := mkLocals [] [] [] "" false [] [].

Definition with_totals (l : locals) (ts : list tdp) : locals :=
  mkLocals ts (grism_product_list l) (ramp_product_list l)
           (manifest_name_v l) (found_data l) (product_list l) (mfile_list l).

Definition add_products (l : locals) (names : list string) : locals :=
  mkLocals (total_obj_list l) (grism_product_list l) (ramp_product_list l)
           (manifest_name_v l) (found_data l) (product_list l ++ names)
           (mfile_list l).

(** A computation over the local variables and the world: both keep
    what was done when an exception is raised. *)
Definition ML (A : Type) : Type := locals -> world -> res A * locals * world.

#[global] Instance ML_ret : MRet ML := fun A a l w => (Val a, l, w).
#[global] Instance ML_bind : MBind ML := fun A B k m l w =>
  match m l w with
  | (Val a, l', w') => k a l' w'
  | (Exc e, l', w') => (Exc e, l', w')
  end.

Definition liftM {A} (m : M A) : ML A := fun l w =>
  let '(r, w') := m w in (r, l, w').

Definition liftR {A} (r : res A) : ML A := fun l w => (r, l, w).

Definition get_locals : ML locals := fun l w => (Val l, l, w).

Definition modify (f : locals -> locals) : ML unit := fun l w => (Val tt, f l, w).

Fixpoint iterML {X} (body : X -> ML unit) (xs : list X) : ML unit :=
  match xs with
  | [] => mret tt
  | x :: rest => body x;; iterML body rest
  end.

(** [open(name).readlines()], each line without its newline. *)
Definition read_text (name : string) : M (list string) := fun w =>
  match texts w !! name with
  | Some lines => (Val lines, w)
  | None => (Exc OSError, w)
  end.

Definition write_text (name : string) (lines : list string) : M unit := fun w =>
  (Val tt, mkWorld (disk w) (<[name := lines]> (texts w)) (calls w)).

Definition text_exists (name : string) : M bool := fun w =>
  (Val (bool_decide (is_Some (texts w !! name))), w).

Definition remove_text (name : string) : M unit := fun w =>
  match texts w !! name with
  | Some _ => (Val tt, mkWorld (disk w) (delete name (texts w)) (calls w))
  | None => (Exc OSError, w)
  end.

Section Run.
Context (C : Collab) (E : Engines).

(** [total_obj_list[i]], the object that [total_item] names. *)
Definition total_at (i : nat) : ML tdp :=
  l ← get_locals; liftR (idx (total_obj_list l) i).

(** A change of the object in place. *)
Definition set_total_at (i : nat) (t : tdp) : ML unit :=
  modify (fun l => with_totals l (<[i := t]> (total_obj_list l))).

(** The manifests of earlier runs merged into [product_list]. *)
Definition merge_manifest (mfile : string) : ML unit :=
  lines ← liftM (read_text mfile);
  modify (fun l =>
    mkLocals (total_obj_list l) (grism_product_list l) (ramp_product_list l)
             (manifest_name_v l) (found_data l) (product_list l ++ lines)
             (mfile_list l ++ [mfile])).

Definition merge_manifests (edp_file : edp) : ML unit := fun l w =>
  iterML merge_manifest (glob_manifests E (exposure_name edp_file) w) l w.

(** Body of the loop over the total products, first part: earlier
    manifests, configuration, alignment, removal of the ramp
    exposures.  The value is [total_item] as it then is. *)
Definition prepare_total (i : nat) : ML tdp :=
  total_item ← total_at i;
  iterML merge_manifests (edp_list total_item);;
  total_item ← liftM (attach_config E total_item);
  set_total_at i total_item;;
  (if bool_decide (edp_list total_item = [])
   then mret tt
   else liftM (log_call (CallAlign (tdp_drizzle_filename total_item)));;
        reference_catalog ← liftM (run_align_to_gaia E total_item);
        modify (fun l => add_products l reference_catalog));;
  let '(fdps, _) :=
    delete_ramp_exposures fdp_filters (fun _ => []) (fdp_list total_item)
                          "FILTER" in
  let '(edps, ramps) :=
    delete_ramp_exposures filters edp_names (edp_list total_item)
                          "EXPOSURE" in
  let total_item := set_edp_list (set_fdp_list total_item fdps) edps in
  set_total_at i total_item;;
  modify (fun l =>
    mkLocals (total_obj_list l) (grism_product_list l) ramps
             (manifest_name_v l) (found_data l) (product_list l ++ ramps)
             (mfile_list l));;
  mret total_item.

(** Second part: the WCS of Grism/Prism and direct images reconciled
    when the total product has both. *)
Definition reconcile_total (i : nat) (total_item : tdp) : ML tdp :=
  if negb (bool_decide (grism_edp_list total_item = []))
     && negb (bool_decide (edp_list total_item = []))
  then '(grism_products, total_item) ←
         liftM (update_wcs_in_visit C total_item);
       set_total_at i total_item;;
       modify (fun l =>
         mkLocals (total_obj_list l) grism_products (ramp_product_list l)
                  (manifest_name_v l) (found_data l)
                  (product_list l ++ grism_products) (mfile_list l));;
       mret total_item
  else mret total_item.

(** Third part: the trailer of a Grism/Prism-only product, the skycell
    keyword of the direct images. *)
Definition finish_total (total_item : tdp) : ML unit :=
  (if negb (bool_decide (grism_edp_list total_item = []))
      && bool_decide (edp_list total_item = [])
   then modify (fun l => add_products l [tdp_trl_filename total_item])
   else mret tt);;
  iterML (fun image =>
            liftM (log_call (CallSkycell (full_filename image)));;
            liftM (add_skycell_to_header E (full_filename image)))
         (edp_list total_item).

Definition process_total (i : nat) : ML unit :=
  total_item ← prepare_total i;
  total_item ← reconcile_total i total_item;
  finish_total total_item.

(** The [try] statement up to the loop over the total products: the
    obset is parsed, the manifest is named, a visit without direct
    images exits.  The value is the keys of [obs_info_dict]. *)
Definition try_parse (input_filename : input) : ML (list string) :=
  '(obs_info_keys, totals) ← liftM (interpret_obset_input E input_filename);
  modify (fun l => with_totals l totals);;
  first ← liftR (idx totals 0);
  modify (fun l =>
    mkLocals (total_obj_list l) (grism_product_list l) (ramp_product_list l)
             (manifest_name first) (found_data l) (product_list l)
             (mfile_list l));;
  modify (fun l =>
    mkLocals (total_obj_list l) (grism_product_list l) (ramp_product_list l)
             (manifest_name_v l)
             (existsb (fun t => negb (bool_decide (edp_list t = []))) totals)
             (product_list l) (mfile_list l));;
  l ← get_locals;
  (if found_data l then mret tt
   else liftM (sys_exit (NO_VIABLE_DATA E)));;
  mret obs_info_keys.

(** The loop over the total products. *)
Definition try_prepare : ML unit :=
  l ← get_locals;
  iterML process_total (seq 0 (length (total_obj_list l))).

(** The steps after the loop: drizzling, catalogs, the pickle of a
    debugging run, quality analysis. *)
Definition try_products (environ : gmap string string)
    (cat_switches : list (string * option bool)) (debug : bool)
    (obs_info_keys : list string) : ML unit :=
  l ← get_locals;
  liftM (log_call CallDrizzle);;
  driz_list ← liftM (create_drizzle_products E (total_obj_list l));
  modify (fun l => add_products l driz_list);;
  (if str_in "total detection product 00" obs_info_keys
   then l ← get_locals;
        liftM (log_call CallCatalogs);;
        catalog_list ←
          liftM (create_catalog_products E (total_obj_list l) cat_switches);
        modify (fun l => add_products l catalog_list)
   else mret tt);;
  (if debug
   then l ← get_locals; liftM (pickle_dump E (total_obj_list l))
   else mret tt);;
  qa_switch ← liftR (qa_requested environ);
  if (qa_switch : bool)
  then l ← get_locals;
       liftM (log_call CallQuality);;
       liftM (run_quality_analysis E (total_obj_list l))
  else mret tt.

(** The body of the [try] statement; [cat_switches] was read before
    it, [debug] is [log_level <= logging.DEBUG]. *)
Definition try_body (environ : gmap string string)
    (cat_switches : list (string * option bool))
    (input_filename : input) (debug : bool) : ML unit :=
  obs_info_keys ← try_parse input_filename;
  try_prepare;;
  try_products environ cat_switches debug obs_info_keys.

(** [return_value] as the handlers leave it. *)
Definition return_value_of (r : res unit) : retval :=
  match r with
  | Val _ => RetInt 0
  | Exc (SystemExit code) => RetExit code
  | Exc _ => RetInt 1
  end.

(** The first part of the [finally] block: the manifest name. *)
Definition final_manifest_name (input_filename : input) (l : locals)
  : M string :=
  if String.eqb (manifest_name_v l) "" then
    name ←
      match input_filename with
      | InOther => mret ""
      | _ =>
          h0 ← getheader_first E input_filename;
          if bool_decide (h0 = ∅) then mret ""
          else
            instrume ← lift (hdr_get "INSTRUME" h0);
            rootname ← lift (hdr_get "ROOTNAME" h0);
            let co_inst := lower instrume in
            let co_root := lower rootname in
            mret (join "_" [co_inst; slice 1 4 co_root; slice 4 6 co_root;
                            "manifest.txt"])
      end;
    match input_filename with
    | InOther => mret "manifest.txt"
    | _ => mret name
    end
  else mret (manifest_name_v l).

(** The manifest is written unless the name is empty or generic. *)
Definition write_manifest (name : string) (l : locals) : M unit :=
  if negb (String.eqb name "") && negb (String.eqb name "manifest.txt")
  then write_text name
         (match total_obj_list l with
          | [] => []
          | _ :: _ => product_list l
          end)
  else mret tt.

(** A placeholder trailer: a copy of the run log, or an empty file
    when there is no log. *)
Definition placeholder_trailer (item : string) : M unit :=
  if endswith "trl.txt" item then
    log_there ← text_exists (logname E);
    if (log_there : bool)
    then lines ← read_text (logname E); write_text item lines
    else there ← text_exists item;
         if (there : bool) then mret tt else write_text item []
  else mret tt.

(** The rest of the [finally] block. *)
Definition close_out (diagnostic_mode : bool) (l : locals) : M unit :=
  (if diagnostic_mode then mret tt
   else iterM (fun mfile =>
                 there ← text_exists mfile;
                 if (there : bool) then remove_text mfile else mret tt)
              (mfile_list l));;
  iterM (fun _ : tdp =>
           iterM placeholder_trailer (grism_product_list l);;
           iterM placeholder_trailer (ramp_product_list l))
        (total_obj_list l);;
  iterM (fun tot_obj =>
           (if found_data l
            then log_call (CallAppendTrl (tdp_trl_filename tot_obj));;
                 append_trl_file E (tdp_trl_filename tot_obj) (logname E)
            else mret tt);;
           (if bool_decide (edp_list tot_obj = []) then mret tt
            else log_call (CallDrizpars (tdp_drizzle_filename tot_obj));;
                 update_drizpars E tot_obj))
        (total_obj_list l);;
  log_there ← text_exists (logname E);
  if (log_there : bool) then remove_text (logname E) else mret tt.

Definition finally_block (input_filename : input) (diagnostic_mode : bool)
    (l : locals) : M unit :=
  name ← final_manifest_name input_filename l;
  write_manifest name l;;
  close_out diagnostic_mode l.

(** The function: the switches are read before the [try] statement, so
    a bad value is raised to the caller; otherwise the body runs, the
    handlers set the value to return and the [finally] block ends the
    run. *)
Definition run_hap_processing (environ : gmap string string)
    (input_filename : input) (diagnostic_mode debug : bool) : M retval :=
  fun w =>
    match cat_switches environ with
    | Exc e => (Exc e, w)
    | Val switches =>
        let '(r, l, w1) :=
          try_body environ switches input_filename debug locals_init w in
        match finally_block input_filename diagnostic_mode l w1 with
        | (Val _, w2) => (Val (return_value_of r), w2)
        | (Exc e, w2) => (Exc e, w2)
        end
    end.

End Run.

End Sequencer.

(** ** A reference instance of the collaborators *)

Module Reference.
Import PyStr Py World Products Wcs Sequencer.

(** Used to run the model on concrete files.  The alternate WCSs of a
    file are the WCSNAME<key> keywords of its first SCI header, the
    primary one under the key " "; its headerlets are the HDRLET
    units, each with a HDRNAME and a WCSNAME. *)
Definition wcs_keys_of (h : header) (include_primary : bool)
  : list (string * string) :=
  omap (fun kv : string * string =>
          let '(k, v) := kv in
          if startswith "WCSNAME" k then
            match String.substring 7 1 k with
            | "" => if include_primary then Some (" ", v) else None
            | key => Some (key, v)
            end
          else None)
       (map_to_list h).

Definition ref_wcsnames (f : fits_file) (include_primary : option bool)
  : list (string * string) :=
  match ext_header "SCI" 1 f with
  | Val h => wcs_keys_of h (match include_primary with
                            | Some b => b
                            | None => true
                            end)
  | Exc _ => []
  end.

Definition is_hdrlet (u : hdu) : bool := String.eqb (upper (extname u)) "HDRLET".

Definition ref_headerlet_kw_names (f : fits_file) (kw : string) : list string :=
  omap (fun u => if is_hdrlet u then hdr u !! norm_keyword kw else None) f.

Definition ref_getKeyFromName (h : header) (wcsname : string) : option string :=
  match List.find (fun kv => String.eqb (lower (snd kv)) (lower wcsname))
                  (wcs_keys_of h true) with
  | Some (k, _) => Some k
  | None => None
  end.

Definition ref_find_headerlet_HDUs (f : fits_file) (hdrname : string) : list nat :=
  omap (fun iu : nat * hdu =>
          if is_hdrlet (snd iu)
             && bool_decide (hdr (snd iu) !! "HDRNAME" = Some hdrname)
          then Some (fst iu) else None)
       (combine (seq 0 (length f)) f).

Definition ref_archive (f : fits_file) (hdrname wcsname wcskey : string)
  : res fits_file :=
  Val (f ++ [mkHdu "HDRLET" (S (countExtn f "HDRLET"))
               (<["HDRNAME" := hdrname]> (<["WCSNAME" := wcsname]> ∅))])%list.

Definition ref_restore (f : fits_file) (hdrname : string) : res fits_file :=
  match List.find (fun u => is_hdrlet u
                            && bool_decide (hdr u !! "HDRNAME" = Some hdrname)) f with
  | Some u =>
      name ← hdr_get "WCSNAME" (hdr u);
      Val (map (fun v => if String.eqb (upper (extname v)) "SCI"
                         then mkHdu (extname v) (extver v)
                                    (hdr_set "WCSNAME" name (hdr v))
                         else v) f)
  | None => Exc ValueError
  end.

(** The compiled pattern [name + "-[\d]"] for a name free of special
    characters: the name, a hyphen and a digit at the start. *)
Definition ref_re_compile (p : string) : res (string -> bool) :=
  let name := drop_last 5 p in
  Val (fun s =>
         startswith (name ++ "-") s
         && match String.get (String.length name + 1) s with
            | Some c => is_digit c
            | None => false
            end).

Definition ref_collab : Collab :=
  mkCollab ref_wcsnames ref_headerlet_kw_names ref_getKeyFromName
           ref_find_headerlet_HDUs ref_archive ref_restore
           (fun f => Val f) (fun _ => Val "a priori")
           (fun f => (countExtn f "SCI", "SCI")) ref_re_compile.

(** An image with one SCI unit; [wcs] lists the keywords of the SCI
    header. *)
Definition image (filename drizcorr : string) (sci : list (string * string))
  : fits_file :=
  [mkHdu "PRIMARY" 0 (<["FILENAME" := filename]> (<["DRIZCORR" := drizcorr]> ∅));
   mkHdu "SCI" 1 (list_to_map sci)].

Definition exposure (root : string) : edp :=
  mkEdp (root ++ ".fits") (root ++ "_trl.txt") "f606w" root
        (root ++ "_drz.fits").

Definition world_of (files : list (string * fits_file)) : world :=
  mkWorld (list_to_map files) ∅ [].

(** Two Grism images without a common solution name, one direct image. *)
Definition clash_world : world :=
  world_of
    [("g1.fits", image "g1.fits" "COMPLETE"
                   [("WCSNAME", "IDC_0461802ej-GSC240"); ("IDCSCALE", "0.05")]);
     ("g2.fits", image "g2.fits" "COMPLETE"
                   [("WCSNAME", "OPUS"); ("IDCSCALE", "0.05")]);
     ("d1.fits", image "d1.fits" "COMPLETE"
                   [("WCSNAME", "IDC_0461802ej-GSC240"); ("IDCSCALE", "0.05")])].

Definition clash_tdp : tdp :=
  mkTdp "wfc" "acs_a1b_01_manifest.txt" "total_trl.txt" "total_drz.fits"
        [exposure "d1"] [] [exposure "g1"; exposure "g2"].

(** A Grism image without any solution name and one whose only name is
    none of the preferred ones. *)
Definition orphan_world : world :=
  world_of
    [("g1.fits", image "g1.fits" "COMPLETE" [("IDCSCALE", "0.05")]);
     ("g2.fits", image "g2.fits" "COMPLETE"
                   [("WCSNAME", "OPUS"); ("IDCSCALE", "0.05")]);
     ("d1.fits", image "d1.fits" "COMPLETE"
                   [("WCSNAME", "IDC_0461802ej-GSC240"); ("IDCSCALE", "0.05")])].

(** A Grism image and a direct image whose solution names differ; the
    SCI header of the direct image has no HDRNAME. *)
Definition disjoint_world : world :=
  world_of
    [("g1.fits", image "g1.fits" "COMPLETE"
                   [("WCSNAME", "IDC_0461802ej-GSC240"); ("IDCSCALE", "0.05")]);
     ("d1.fits", image "d1.fits" "COMPLETE"
                   [("WCSNAME", "IDC_0461802ek-GSC240"); ("IDCSCALE", "0.05")])].

Definition disjoint_tdp : tdp :=
  mkTdp "wfc" "acs_a1b_01_manifest.txt" "total_trl.txt" "total_drz.fits"
        [exposure "d1"] [] [exposure "g1"].

(** Engines that do nothing but hand back fixed products. *)
Definition ref_engines (totals : res (list string * list tdp)) : Engines :=
  mkEngines (fun _ => lift totals) (fun _ _ => []) (fun t => mret t)
            (fun _ => mret []) (fun _ => mret tt)
            (fun _ => mret ["total_drz.fits"]) (fun _ _ => mret ["total_cat.ecsv"])
            (fun _ => mret tt) (fun _ => mret tt)
            (fun _ => raise OSError) (fun _ _ => mret tt) (fun _ => mret tt)
            "run.log" 5.

End Reference.

(** * Properties *)

(** ** Facts on the string primitives *)

Module PyStrFacts.
Import PyStr.

Lemma lower_char_idem (c : ascii) : lower_char (lower_char c) = lower_char c.
Proof. destruct c as [[] [] [] [] [] [] [] []]; reflexivity. Qed.

Lemma lower_char_semicolon (c : ascii) :
  Ascii.eqb (lower_char c) ";" = Ascii.eqb c ";".
Proof. destruct c as [[] [] [] [] [] [] [] []]; reflexivity. Qed.

Lemma lower_idem (s : string) : lower (lower s) = lower s.
Proof.
  induction s as [|c s IH]; simpl; [reflexivity|].
  now rewrite lower_char_idem, IH.
Qed.

Lemma lower_app (s t : string) : lower (s ++ t) = lower s ++ lower t.
Proof. induction s as [|c s IH]; simpl; [reflexivity | now rewrite IH]. Qed.

Lemma split_not_nil (sep : ascii) (s : string) : split sep s <> [].
Proof.
  destruct s as [|c s]; simpl; [discriminate|].
  destruct (Ascii.eqb c sep); [discriminate|].
  destruct (split sep s); discriminate.
Qed.

Lemma split_lower (s : string) :
  split ";" (lower s) = map lower (split ";" s).
Proof.
  induction s as [|c s IH]; simpl; [reflexivity|].
  rewrite lower_char_semicolon.
  destruct (Ascii.eqb c ";"); simpl; [now rewrite IH|].
  rewrite IH.
  destruct (split ";" s) as [|h t] eqn:E; [now apply split_not_nil in E|].
  reflexivity.
Qed.

Lemma join_cons2 (sep x y : string) (l : list string) :
  join sep (x :: y :: l) = x ++ sep ++ join sep (y :: l).
Proof. reflexivity. Qed.

Lemma join_lower (l : list string) :
  lower (join "-" l) = join "-" (map lower l).
Proof.
  induction l as [|x l IH]; [reflexivity|].
  destruct l as [|y l]; [reflexivity|].
  cbn [map] in *. rewrite !join_cons2, !lower_app, IH. reflexivity.
Qed.

Lemma filter_map_lower (p : string -> bool) (l : list string) :
  List.filter p (map lower l) = map lower (List.filter (fun c => p (lower c)) l).
Proof.
  induction l as [|x l IH]; simpl; [reflexivity|].
  destruct (p (lower x)); simpl; now rewrite IH.
Qed.

Lemma map_lower_idem (l : list string) :
  map lower (map lower l) = map lower l.
Proof.
  rewrite map_map. apply map_ext. intros; apply lower_idem.
Qed.

End PyStrFacts.

(** ** Filter-name resolution *)

Module FilterNameFacts.
Import PyStr PyStrFacts PollerUtils.

Lemma determine_filter_name_refines (raw : string) :
  determine_filter_name raw = resolve_spec raw.
Proof.
  unfold determine_filter_name, resolve_spec.
  rewrite split_lower, filter_map_lower.
  destruct (List.filter _ (split ";" raw)) as [|first rest]; [reflexivity|].
  cbn [map].
  destruct (startswith "pol" (lower first)).
  - now rewrite join_lower, map_rev.
  - now rewrite join_lower.
Qed.

Lemma determine_filter_name_lower (raw : string) :
  lower (determine_filter_name raw) = determine_filter_name raw.
Proof.
  rewrite determine_filter_name_refines. unfold resolve_spec.
  destruct (List.filter _ (split ";" raw)); [reflexivity|].
  apply lower_idem.
Qed.

(** C6. The filter-name resolution of the source is a function of its
    input that agrees, on every string, with the rule of the
    specification (components containing "clear" in any letter case are
    dropped, no survivor gives "clear", survivors are reversed when the
    first starts with "pol", joined with "-", lower-cased); its result
    is always lower-case; and the five documented values hold. *)
Theorem C6_filter_name_resolution :
  (forall raw, determine_filter_name raw = resolve_spec raw)
  /\ (forall raw, lower (determine_filter_name raw) = determine_filter_name raw)
  /\ determine_filter_name "F555W" = "f555w"
  /\ determine_filter_name "CLEAR1L;F555W" = "f555w"
  /\ determine_filter_name "CLEAR1L;CLEAR2L" = "clear"
  /\ determine_filter_name "F606W;POL60" = "f606w-pol60"
  /\ determine_filter_name "POL60;F606W" = "f606w-pol60".
Proof.
  split; [exact determine_filter_name_refines|].
  split; [exact determine_filter_name_lower|].
  repeat split; reflexivity.
Qed.

End FilterNameFacts.

(** ** Environment switches *)

Module EnvSwitchFacts.
Import PyStr Py EnvSwitch.

Lemma dflt_on (environ : gmap string string) (sw : string) :
  environ !! sw = None ->
  _get_envvar_switch environ sw (Some "on") = Val (Some true).
Proof. intros H. unfold _get_envvar_switch. now rewrite H. Qed.

Lemma set_value_lookup (environ : gmap string string) (sw v : string)
    (default : option string) :
  environ !! sw = Some v ->
  _get_envvar_switch environ sw default =
    match dict_get (lower v) envvar_bool_dict with
    | Some b => Val (Some b)
    | None => Exc ValueError
    end.
Proof.
  intros H. unfold _get_envvar_switch. rewrite H.
  now destruct (dict_get (lower v) envvar_bool_dict).
Qed.

Lemma dict_get_bool_dict (s : string) :
  dict_get s envvar_bool_dict = None <->
  ~ In s ["on"; "off"; "yes"; "no"; "true"; "false"].
Proof.
  split.
  - intros H Hin. cbn [In] in Hin.
    repeat (destruct Hin as [<-|Hin]; [discriminate H|]). contradiction.
  - intros H. unfold envvar_bool_dict. cbn [dict_get].
    repeat match goal with
    | |- context [String.eqb s ?k] =>
        destruct (String.eqb_spec s k) as [->|_];
        [exfalso; apply H; cbn [In]; tauto|]
    end.
    reflexivity.
Qed.

(** C10. Switch defaults.  A catalog switch missing from the environment
    is True, so no detector with one of the six switches is skipped by
    the catalog step; the quality switch, which has no default, is None
    when unset and the quality analysis is not requested; a value that is
    set is lower-cased and then looked up; and a set value whose
    lower-case form is none of on, off, yes, no, true, false raises
    ValueError. *)
Theorem C10_envvar_switch_defaults (environ : gmap string string) :
  (forall sw dflt, In (sw, dflt) envvar_cat_svm -> environ !! sw = None ->
     _get_envvar_switch environ sw (Some dflt) = Val (Some true))
  /\ ((forall sw dflt, In (sw, dflt) envvar_cat_svm -> environ !! sw = None) ->
      forall detector,
        In (envvar_cat_str (upper detector)) (map fst envvar_cat_svm) ->
        exists switches, cat_switches environ = Val switches
                         /\ catalog_skipped switches detector = Val false)
  /\ (environ !! envvar_qa_svm = None ->
      _get_envvar_switch environ envvar_qa_svm None = Val None
      /\ qa_requested environ = Val false)
  /\ (forall sw v default, environ !! sw = Some v ->
      _get_envvar_switch environ sw default =
        match dict_get (lower v) envvar_bool_dict with
        | Some b => Val (Some b)
        | None => Exc ValueError
        end)
  /\ (forall sw v default, environ !! sw = Some v ->
      ~ In (lower v) ["on"; "off"; "yes"; "no"; "true"; "false"] ->
      _get_envvar_switch environ sw default = Exc ValueError).
Proof.
  split; [|split; [|split; [|split]]].
  - intros sw dflt Hin Hnone.
    assert (dflt = "on") as ->.
    { unfold envvar_cat_svm in Hin. cbn [In] in Hin.
      repeat (destruct Hin as [Hin|Hin]; [now inversion Hin|]).
      contradiction. }
    now apply dflt_on.
  - intros Hunset detector Hdet.
    exists (map (fun kv => (fst kv, Some true)) envvar_cat_svm).
    split.
    + unfold cat_switches, envvar_cat_svm in *. cbn [cat_switches_of].
      rewrite !dflt_on; [reflexivity | ..];
        (eapply Hunset; cbn [In]; eauto 10).
    + unfold catalog_skipped.
      cbn [map fst envvar_cat_svm In] in Hdet.
      destruct Hdet as [<-|[<-|[<-|[<-|[<-|[<-|[]]]]]]]; reflexivity.
  - intros Hnone. unfold qa_requested, _get_envvar_switch.
    now rewrite Hnone.
  - intros sw v default Hset. now apply set_value_lookup.
  - intros sw v default Hset Hout.
    rewrite (set_value_lookup _ _ _ _ Hset).
    apply dict_get_bool_dict in Hout. now rewrite Hout.
Qed.

End EnvSwitchFacts.

(** ** The n1 exposure time *)

Module N1Facts.
Import PyStr Py Catalogs.

Lemma perm3_cases {A} (a b c : A) (l : list A) :
  Permutation l [a; b; c] ->
  l = [a; b; c] \/ l = [a; c; b] \/ l = [b; a; c]
  \/ l = [b; c; a] \/ l = [c; a; b] \/ l = [c; b; a].
Proof.
  intros HP.
  destruct (Permutation_vs_cons_inv HP) as (l1 & l2 & ->).
  apply Permutation_sym, Permutation_cons_app_inv in HP.
  apply Permutation_length_2_inv in HP.
  destruct l1 as [|x [|y [|z l1]]]; cbn in HP;
    destruct HP as [HP|HP]; inversion HP; subst; cbn; auto 10.
  all: try (destruct l1; discriminate).
Qed.

Lemma n1_two_filters (detector fa fb : string) (t1 t2 : Q) :
  str_in (upper detector) ["IR"; "SBC"] = false ->
  fa <> fb ->
  (t1 + t2 == 200)%Q ->
  forall edp_list,
    edp_list = [mkExposure fa t1; mkExposure fa t2; mkExposure fb 50]
    \/ edp_list = [mkExposure fa t1; mkExposure fb 50; mkExposure fa t2]
    \/ edp_list = [mkExposure fb 50; mkExposure fa t1; mkExposure fa t2] ->
  exists tot n1,
    n1_exposure_time_of detector (3 # 10) edp_list = Val (tot, n1)
    /\ (tot == 200)%Q /\ (n1 == 0)%Q.
Proof.
  intros Hdet Hne Hsum edp_list Hl.
  assert (Eab : String.eqb fa fb = false) by now apply String.eqb_neq.
  assert (Eba : String.eqb fb fa = false)
    by (apply String.eqb_neq; congruence).
  unfold n1_exposure_time_of. rewrite Hdet.
  destruct Hl as [-> | [-> | ->]];
    cbn [tally_exposures dict_get dict_set filters exptime n texptime];
    rewrite ?String.eqb_refl, ?Eab, ?Eba;
    cbn [tally_exposures dict_get dict_set filters exptime n texptime];
    rewrite ?String.eqb_refl, ?Eab, ?Eba;
    cbn [dict_values map snd max_n res_bind fold_left n texptime Nat.add
         Nat.max Nat.ltb Nat.leb sum_multi];
    match goal with
    | |- context [Qltb ?x ?y] => destruct (Qltb x y)
    end;
    eexists; eexists; (split; [reflexivity|]); split;
      try (rewrite <- Hsum; ring); try reflexivity; try ring.
Qed.

(** C7. On a detector other than IR and SBC, whenever the member
    exposures are two exposures of one filter whose times add up to
    200 s and one 50 s exposure of another filter, in any order, and
    cr_residual is 0.3, the total exposure time is 200 and the n1
    exposure time handed to verify_crthresh is 0. *)
Theorem C7_n1_exposure_time (detector fa fb : string) (t1 t2 : Q)
    (edp_list : list exposure) :
  str_in (upper detector) ["IR"; "SBC"] = false ->
  fa <> fb ->
  (t1 + t2 == 200)%Q ->
  Permutation edp_list
    [mkExposure fa t1; mkExposure fa t2; mkExposure fb 50] ->
  exists tot n1,
    n1_exposure_time_of detector (3 # 10) edp_list = Val (tot, n1)
    /\ (tot == 200)%Q /\ (n1 == 0)%Q.
Proof.
  intros Hdet Hne Hsum HP.
  assert (Hsum' : (t2 + t1 == 200)%Q) by (rewrite Qplus_comm; exact Hsum).
  destruct (perm3_cases _ _ _ _ HP) as [-> | [-> | [-> | [-> | [-> | ->]]]]].
  - apply (n1_two_filters detector fa fb t1 t2); auto.
  - apply (n1_two_filters detector fa fb t1 t2); auto.
  - apply (n1_two_filters detector fa fb t2 t1); auto.
  - apply (n1_two_filters detector fa fb t2 t1); auto.
  - apply (n1_two_filters detector fa fb t1 t2); auto.
  - apply (n1_two_filters detector fa fb t2 t1); auto.
Qed.

Lemma C7_n1_exposure_time_witness :
  exists tot n1,
    n1_exposure_time_of "WFC" (3 # 10)
      [mkExposure "f606w" 120; mkExposure "f814w" 50; mkExposure "f606w" 80]
    = Val (tot, n1)
    /\ (tot == 200)%Q /\ (n1 == 0)%Q.
Proof.
  apply (C7_n1_exposure_time "WFC" "f606w" "f814w" 120 80).
  - reflexivity.
  - discriminate.
  - reflexivity.
  - apply perm_skip, perm_swap.
Defined.

End N1Facts.

(** ** Catalog pruning *)

Module PruneFacts.
Import PyStr Py Catalogs.

Lemma isclose_int (z : Z) : isclose (inject_Z z) fill_value = false.
Proof.
  apply not_true_iff_false. intros H.
  unfold isclose in H. apply Qle_bool_iff in H.
  revert H. apply Qabs_case; intros H0 H;
    unfold fill_value, Qle, Qminus, Qplus, Qmult, Qopp, inject_Z in *;
    cbn in *; lia.
Qed.

Lemma Qltb_lt (x y : Q) : Qltb x y = true <-> (x < y)%Q.
Proof.
  unfold Qltb. rewrite negb_true_iff, <- not_true_iff_false, Qle_bool_iff.
  split; [apply Qnot_le_lt | apply Qlt_not_le].
Qed.

(** On an integer column the bit of a cell is set exactly when the
    cell holds a value above the threshold: the filled value of a
    masked cell is -9999, which is not close to -9999.9. *)
Lemma flag_bit_spec (flag_trim_value : Q) (c : option Z) :
  (inject_Z fill_int <= flag_trim_value)%Q ->
  flag_bit flag_trim_value c = true <->
  exists v, c = Some v /\ (flag_trim_value < inject_Z v)%Q.
Proof.
  intros Hfill. unfold flag_bit.
  rewrite isclose_int, orb_false_r, Qltb_lt.
  destruct c as [v|]; cbn [filled].
  - split; [eauto|]. intros (v' & E & H). now inversion E; subst.
  - split.
    + intros H. exfalso. apply (Qlt_not_le _ _ H), Hfill.
    + intros (v & E & _). discriminate.
Qed.

Lemma in_flag_columns (t : table) (col : column) :
  In col (flag_columns t) <-> In col t /\ contains "Flags_" (fst col) = true.
Proof. unfold flag_columns. apply filter_In. Qed.

Lemma flag_mask_spec (flag_trim_value : Q) (t : table) (i : nat) :
  (inject_Z fill_int <= flag_trim_value)%Q ->
  flag_mask flag_trim_value t i = true <->
  forall col, In col t -> contains "Flags_" (fst col) = true ->
              exists v, cell_at i col = Some v
                        /\ (flag_trim_value < inject_Z v)%Q.
Proof.
  intros Hfill. unfold flag_mask. rewrite forallb_forall. split.
  - intros H col Hin Hname. apply (flag_bit_spec _ _ Hfill), H.
    now apply in_flag_columns.
  - intros H col Hin. apply in_flag_columns in Hin as [Hin Hname].
    apply (flag_bit_spec _ _ Hfill). now apply H.
Qed.

Lemma good_rows_spec (flag_trim_value : Q) (t : table) (i : nat) :
  In i (good_rows_index flag_trim_value t) <->
  (i < nrows t)%nat /\ flag_mask flag_trim_value t i = false.
Proof.
  unfold good_rows_index. rewrite filter_In, in_seq, negb_true_iff.
  intuition lia.
Qed.

(** C8 (what the code does).  With integer Flags columns and a
    threshold not below -9999, a row is dropped by the pruning step
    exactly when every column whose name contains "Flags_" holds, in
    that row, an unmasked value strictly above the threshold: a masked
    cell keeps its row.  Every column of the pruned table holds the
    cells of the rows kept, in order.  On the documented example with
    threshold 5 the row with Flags_F606W = 6 and Flags_F814W masked is
    kept, as is the row with 2 and masked; only the row with 6 and 9
    is dropped, in [sources] for the aperture catalog and in
    [source_cat] for the segment catalog. *)
Theorem C8_masked_cell_keeps_row (flag_trim_value : Q) (t : table) (i : nat) :
  (i < nrows t)%nat ->
  (inject_Z fill_int <= flag_trim_value)%Q ->
  (~ In i (good_rows_index flag_trim_value t) <->
     forall col, In col t -> contains "Flags_" (fst col) = true ->
                 exists v, cell_at i col = Some v
                           /\ (flag_trim_value < inject_Z v)%Q)
  /\ (forall c col, nth_error t c = Some col ->
        nth_error (prune_table flag_trim_value t) c
        = Some (fst col,
                map (fun k => cell_at k col)
                    (good_rows_index flag_trim_value t)))
  /\ good_rows_index 5 example_table = [0; 1]%nat
  /\ prune_catalogs 5 example_catalogs
     = [("aperture",
         mkCatalog [("X-Center", [Some 1; Some 2]%Z);
                    ("Flags_F606W", [Some 6; Some 2]%Z);
                    ("Flags_F814W", [None; None])]
                   other_table);
        ("segment",
         mkCatalog other_table
                   [("X-Center", [Some 1; Some 2]%Z);
                    ("Flags_F606W", [Some 6; Some 2]%Z);
                    ("Flags_F814W", [None; None])])].
Proof.
  intros Hi Hfill. split; [|split; [|split; reflexivity]].
  - rewrite good_rows_spec, <- (flag_mask_spec _ _ _ Hfill).
    destruct (flag_mask flag_trim_value t i); intuition congruence.
  - intros c col Hc. unfold prune_table, take_rows.
    now apply (map_nth_error (fun col0 : column => _)).
Qed.

Lemma C8_masked_cell_keeps_row_witness :
  (~ In 0%nat (good_rows_index 5 example_table) <->
     forall col, In col example_table -> contains "Flags_" (fst col) = true ->
                 exists v, cell_at 0 col = Some v /\ (5 < inject_Z v)%Q).
Proof.
  apply (C8_masked_cell_keeps_row 5 example_table 0).
  - cbn. lia.
  - vm_compute. discriminate.
Defined.

End PruneFacts.

(** ** The obset interpreter *)

Module ParseFacts.
Import PyStr Py PollerUtils.

Lemma bind_Val {A B} (r : res A) (k : A -> res B) (b : B) :
  (r ≫= k) = Val b -> exists a, r = Val a /\ k a = Val b.
Proof. destruct r as [a|e]; cbn; [eauto | discriminate]. Qed.

Ltac inv_bind H :=
  repeat match type of H with
  | (_ ≫= _) = Val _ =>
      let a := fresh "a" in
      let Ha := fresh "Ha" in
      apply bind_Val in H; destruct H as (a & Ha & H)
  | (let '(_, _) := ?p in _) = Val _ => destruct p
  | (match ?p with (_, _) => _ end) = Val _ => destruct p
  end.

Lemma format02d_decode (k : nat) :
  option_map Nat.of_uint (NilEmpty.uint_of_string (format02d k)) = Some k.
Proof.
  unfold format02d. destruct (k <? 10)%nat eqn:E.
  - apply Nat.ltb_lt in E.
    do 10 (destruct k as [|k]; [reflexivity|]). lia.
  - rewrite NilEmpty.usu. cbn. now rewrite DecimalNat.Unsigned.of_to.
Qed.

Lemma format02d_inj (a b : nat) : format02d a = format02d b -> a = b.
Proof.
  intros H. pose proof (format02d_decode a) as Ha.
  rewrite H, format02d_decode in Ha. now inversion Ha.
Qed.

Lemma SEP_STR_inj (a b : nat) : SEP_STR a = SEP_STR b -> a = b.
Proof. unfold SEP_STR. cbn. intros H. inversion H. now apply format02d_inj. Qed.

Lemma SEP_FP (a b : nat) : SEP_STR a <> FP_STR b.
Proof. unfold SEP_STR, FP_STR. cbn. discriminate. Qed.

Lemma SEP_TDP (a b : nat) : SEP_STR a <> TDP_STR b.
Proof. unfold SEP_STR, TDP_STR. cbn. discriminate. Qed.

Lemma exposure_step_effect (tot fp : string) (st st' : pstate) (e : tree_exposure) :
  exposure_step tot fp st e = Val st' ->
  (forall key, key <> fp -> key <> tot ->
     obset_products st' !! key
     = <[SEP_STR (sep_indx st) :=
           mkEntry (lower (fst e ++ " " ++ step_filetype st e)) [snd e]]>
         (obset_products st) !! key)
  /\ sep_indx st' = (sep_indx st + 1)%nat
  /\ det_indx st' = det_indx st
  /\ filt_indx st' = filt_indx st
  /\ prev_det_indx st' = det_indx st
  /\ filetype st' = step_filetype st e.
Proof.
  unfold exposure_step, step_filetype. intros H.
  destruct (det_indx st =? prev_det_indx st)%nat eqn:E;
    [apply Nat.eqb_eq in E|];
    inv_bind H.
  all: destruct (info a5 =? "")%string; inv_bind Ha6; inversion Ha6; subst; clear Ha6.
  all: destruct (info a8 =? "")%string; inv_bind Ha10; inversion Ha10; subst; clear Ha10.
  all: inversion H; subst; clear H; cbn.
  all: split; [|auto using eq_sym].
  all: intros key Hfp Htot; now rewrite ?(lookup_insert_ne _ tot key), ?(lookup_insert_ne _ fp key) by congruence.
Qed.

Lemma exposure_step_inv tot fp jt jf st st' e g done :
  tot = TDP_STR jt -> fp = FP_STR jf ->
  exposure_step tot fp st e = Val st' ->
  gstate st g -> sep_inv st done ->
  gstate st' (pick_first g [e])
  /\ sep_inv st' (done ++ [(e, pick_first g [e])])
  /\ det_indx st' = det_indx st /\ filt_indx st' = filt_indx st.
Proof.
  intros -> -> H Hg [Hlen Hdone].
  apply exposure_step_effect in H.
  destruct H as (Hprod & Hsep & Hdet & Hfilt & Hprev & Hft).
  assert (Hstep : step_filetype st e
                  = match pick_first g [e] with Some f => filetype_of (snd f) | None => "" end).
  { unfold step_filetype. destruct g as [f|]; cbn in *.
    - destruct Hg as [-> ->]. now rewrite Nat.eqb_refl.
    - destruct (Nat.eqb_spec (det_indx st) (prev_det_indx st)); [lia | reflexivity]. }
  split; [|split; [|auto]].
  - destruct g as [f|]; cbn in *.
    + split; [congruence|]. now rewrite Hft, Hstep.
    + split; [congruence|]. now rewrite Hft, Hstep.
  - split; [rewrite length_app; cbn; lia|].
    intros k e' r Hk.
    rewrite Hprod by (apply SEP_FP || apply SEP_TDP).
    destruct (Nat.lt_ge_cases k (length done)) as [Hlt|Hge].
    + rewrite nth_error_app1 in Hk by exact Hlt.
      rewrite lookup_insert_ne; [eauto|].
      intros Heq. apply SEP_STR_inj in Heq. lia.
    + rewrite nth_error_app2 in Hk by exact Hge.
      destruct (k - length done)%nat as [|m] eqn:Ek; cbn in Hk;
        [|destruct m; discriminate].
      assert (k = sep_indx st) as -> by lia.
      rewrite lookup_insert_eq. inversion Hk. subst e'.
      rewrite Hstep. now rewrite H1.
Qed.

Lemma gstate_le st g : gstate st g -> (prev_det_indx st <= det_indx st)%nat.
Proof. destruct g; cbn; intuition lia. Qed.

Lemma pick_first_app g es rest :
  pick_first (pick_first g es) rest = pick_first g (es ++ rest).
Proof. destruct g, es; reflexivity. Qed.

Lemma tag_first_app g (es rest : list tree_exposure) :
  map (fun e => (e, pick_first g es)) es
  = map (fun e => (e, pick_first g (es ++ rest))) es.
Proof. destruct g, es; reflexivity. Qed.

Lemma exposures_loop_inv tot fp jt jf es :
  tot = TDP_STR jt -> fp = FP_STR jf ->
  forall st st' g done,
  for_each (exposure_step tot fp) es st = Val st' ->
  gstate st g -> sep_inv st done ->
  gstate st' (pick_first g es)
  /\ sep_inv st' (done ++ map (fun e => (e, pick_first g es)) es)
  /\ det_indx st' = det_indx st.
Proof.
  intros Ht Hf. induction es as [|e es IH]; intros st st' g done H Hg Hinv.
  - cbn in H. inversion H; subst. rewrite app_nil_r.
    destruct g; auto.
  - cbn [for_each] in H. inv_bind H.
    destruct (exposure_step_inv _ _ _ _ _ _ _ _ _ Ht Hf Ha Hg Hinv)
      as (Hg1 & Hinv1 & Hd1 & _).
    destruct (IH _ _ _ _ H Hg1 Hinv1) as (Hg2 & Hinv2 & Hd2).
    rewrite (pick_first_app g [e] es) in Hg2, Hinv2. cbn [app] in Hg2, Hinv2.
    rewrite <- app_assoc in Hinv2. cbn [app] in Hinv2.
    replace (pick_first g [e]) with (pick_first g (e :: es)) in Hinv2
      by (destruct g; reflexivity).
    cbn [map]. repeat split; [exact Hg2 | apply Hinv2 | apply Hinv2 | congruence].
Qed.

Lemma filter_step_inv tot jt st st' fg g done :
  tot = TDP_STR jt ->
  filter_step tot st fg = Val st' ->
  gstate st g -> sep_inv st done ->
  gstate st' (pick_first g (snd fg))
  /\ sep_inv st' (done ++ map (fun e => (e, pick_first g (snd fg))) (snd fg))
  /\ det_indx st' = det_indx st.
Proof.
  intros Ht H Hg [Hlen Hdone]. unfold filter_step in H. inv_bind H.
  inversion H; subst st'; clear H. cbn.
  eapply (exposures_loop_inv _ _ jt (filt_indx st)) in Ha;
    [ | exact Ht | reflexivity | .. ].
  - exact Ha.
  - destruct g; exact Hg.
  - split; [exact Hlen|]. intros k e r Hk. cbn.
    rewrite lookup_insert_ne by (apply not_eq_sym, SEP_FP). eauto.
Qed.

Lemma filters_loop_inv tot jt fgs :
  tot = TDP_STR jt ->
  forall st st' g done,
  for_each (filter_step tot) fgs st = Val st' ->
  gstate st g -> sep_inv st done ->
  let es := concat (map snd fgs) in
  gstate st' (pick_first g es)
  /\ sep_inv st' (done ++ map (fun e => (e, pick_first g es)) es)
  /\ det_indx st' = det_indx st.
Proof.
  intros Ht. induction fgs as [|fg fgs IH]; intros st st' g done H Hg Hinv.
  - cbn in H. inversion H; subst. cbn. rewrite app_nil_r. destruct g; auto.
  - cbn [for_each] in H. inv_bind H.
    destruct (filter_step_inv _ _ _ _ _ _ _ Ht Ha Hg Hinv) as (Hg1 & Hinv1 & Hd1).
    destruct (IH _ _ _ _ H Hg1 Hinv1) as (Hg2 & Hinv2 & Hd2).
    cbn [map concat]. cbv zeta in *.
    rewrite pick_first_app in Hg2, Hinv2.
    rewrite <- app_assoc in Hinv2.
    rewrite (tag_first_app g (snd fg) (concat (map snd fgs))) in Hinv2.
    rewrite <- map_app in Hinv2.
    repeat split; [exact Hg2 | apply Hinv2 | apply Hinv2 | congruence].
Qed.

Lemma detector_step_inv st st' det done :
  detector_step st det = Val st' ->
  (prev_det_indx st <= det_indx st)%nat -> sep_inv st done ->
  (prev_det_indx st' <= det_indx st')%nat
  /\ sep_inv st'
       (done ++ map (fun e => (e, first_exposure (group_exposures det)))
                    (group_exposures det)).
Proof.
  intros H Hle [Hlen Hdone]. unfold detector_step in H. inv_bind H.
  inversion H; subst st'; clear H. cbn.
  eapply (filters_loop_inv _ (det_indx st) _ eq_refl _ _ None done) in Ha.
  - destruct Ha as (Hg & Hinv & _). split; [eapply gstate_le, Hg | exact Hinv].
  - cbn. lia.
  - split; [exact Hlen|]. intros k e r Hk. cbn.
    rewrite lookup_insert_ne by (apply not_eq_sym, SEP_TDP). eauto.
Qed.

Lemma detectors_loop_inv tree :
  forall st st' done,
  for_each detector_step tree st = Val st' ->
  (prev_det_indx st <= det_indx st)%nat -> sep_inv st done ->
  sep_inv st' (done ++ exposures_with first_exposure tree).
Proof.
  induction tree as [|det tree IH]; intros st st' done H Hle Hinv.
  - cbn in H. inversion H; subst. now rewrite app_nil_r.
  - cbn [for_each] in H. inv_bind H.
    destruct (detector_step_inv _ _ _ _ Ha Hle Hinv) as (Hle1 & Hinv1).
    specialize (IH _ _ _ H Hle1 Hinv1).
    unfold exposures_with in *. cbn [flat_map]. now rewrite app_assoc.
Qed.

Lemma entry_of_Val (d : gmap string prod_entry) (k : string) (x : prod_entry) :
  entry_of d k = Val x -> d !! k = Some x.
Proof. unfold entry_of. destruct (d !! k); intros H; now inversion H. Qed.

Ltac simp_lookup H :=
  repeat first [ rewrite lookup_insert_eq in H
               | rewrite lookup_insert_ne in H by congruence ].

Ltac step_entries :=
  repeat match goal with
  | H : entry_of _ _ = Val _ |- _ => apply entry_of_Val in H
  | H : (if ?b then _ else _) = Val _ |- _ =>
      destruct b eqn:?; inv_bind H; inversion H; subst; clear H
  | H : <[_:=_]> _ !! _ = Some _ |- _ => progress simp_lookup H
  | H : Some _ = Some _ |- _ => inversion H; subst; clear H
  | H1 : ?m !! ?k = Some ?x, H2 : ?m !! ?k = Some ?y |- _ =>
      rewrite H1 in H2
  end.

Lemma exposure_step_entries (tot fp : string) (st st' : pstate) (e : tree_exposure) :
  fp <> tot -> SEP_STR (sep_indx st) <> fp -> SEP_STR (sep_indx st) <> tot ->
  exposure_step tot fp st e = Val st' ->
  let prod_info := lower (fst e ++ " " ++ step_filetype st e) in
  exists fe te,
    obset_products st !! fp = Some fe
    /\ obset_products st !! tot = Some te
    /\ obset_products st' !! fp
       = Some (mkEntry (set_info (info fe) prod_info) (files fe ++ [snd e]))
    /\ obset_products st' !! tot
       = Some (mkEntry (set_info (info te) prod_info) (files te ++ [snd e])).
Proof.
  intros Hft Hsf Hst H. unfold exposure_step, step_filetype in *.
  destruct (det_indx st =? prev_det_indx st)%nat eqn:E; inv_bind H;
    step_entries; inversion H; subst; clear H; cbn;
    match goal with
    | H1 : obset_products st !! fp = Some ?x,
      H2 : obset_products st !! tot = Some ?y |- _ => exists x, y
    end;
    unfold set_info;
    repeat match goal with H : (_ =? _)%string = _ |- _ => rewrite H end;
    (repeat split; try assumption);
    repeat first [ rewrite lookup_insert_eq
                 | rewrite lookup_insert_ne by congruence ];
    try reflexivity.
Qed.

Lemma FP_STR_inj (a b : nat) : FP_STR a = FP_STR b -> a = b.
Proof. unfold FP_STR. cbn. intros H. inversion H. now apply format02d_inj. Qed.

Lemma TDP_STR_inj (a b : nat) : TDP_STR a = TDP_STR b -> a = b.
Proof. unfold TDP_STR. cbn. intros H. inversion H. now apply format02d_inj. Qed.

Lemma FP_TDP (a b : nat) : FP_STR a <> TDP_STR b.
Proof. unfold FP_STR, TDP_STR. cbn. discriminate. Qed.

Lemma prod_info_nonempty (x y : string) :
  String.eqb (lower (x ++ " " ++ y)) "" = false.
Proof. destruct x; reflexivity. Qed.

Lemma exposure_step_gstate (tot fp : string) (st st' : pstate)
    (e : tree_exposure) (g : option tree_exposure) :
  exposure_step tot fp st e = Val st' ->
  gstate st g ->
  gstate st' (pick_first g [e])
  /\ step_filetype st e
     = match pick_first g [e] with
       | Some f => filetype_of (snd f)
       | None => ""
       end.
Proof.
  intros H Hg. apply exposure_step_effect in H.
  destruct H as (_ & _ & Hdet & _ & Hprev & Hft).
  assert (Hstep : step_filetype st e
                  = match pick_first g [e] with
                    | Some f => filetype_of (snd f)
                    | None => ""
                    end).
  { unfold step_filetype. destruct g as [f|]; cbn in *.
    - destruct Hg as [-> ->]. now rewrite Nat.eqb_refl.
    - destruct (Nat.eqb_spec (det_indx st) (prev_det_indx st));
        [lia | reflexivity]. }
  split; [|exact Hstep].
  destruct g as [f|]; cbn in *; (split; [congruence|]);
    now rewrite Hft, Hstep.
Qed.

Lemma exposure_step_cur (tot fp : string) (jt jf : nat) (st st' : pstate)
    (e : tree_exposure) (g gf : option tree_exposure) :
  tot = TDP_STR jt -> fp = FP_STR jf ->
  exposure_step tot fp st e = Val st' ->
  gstate st g -> gf_ok gf g ->
  cur st fp gf g -> cur st tot g g ->
  gstate st' (pick_first g [e])
  /\ gf_ok (pick_first gf [e]) (pick_first g [e])
  /\ cur st' fp (pick_first gf [e]) (pick_first g [e])
  /\ cur st' tot (pick_first g [e]) (pick_first g [e])
  /\ (forall j, j <> jf ->
        obset_products st' !! FP_STR j = obset_products st !! FP_STR j)
  /\ (forall d, d <> jt ->
        obset_products st' !! TDP_STR d = obset_products st !! TDP_STR d)
  /\ det_indx st' = det_indx st /\ filt_indx st' = filt_indx st.
Proof.
  intros -> -> H Hg Hok [ff Hf] [tf Ht].
  destruct (exposure_step_gstate _ _ _ _ _ _ H Hg) as [Hg' Hstep].
  pose proof (exposure_step_effect _ _ _ _ _ H)
    as (Hframe & _ & Hdet & Hfilt & _ & _).
  destruct (exposure_step_entries _ _ _ _ _
              (FP_TDP jf jt) (SEP_FP _ _) (SEP_TDP _ _) H)
    as (fe & te & Hfe & Hte & Hfe' & Hte').
  rewrite Hf in Hfe. rewrite Ht in Hte.
  inversion Hfe; subst fe. inversion Hte; subst te. cbn [info files] in *.
  rewrite Hstep in Hfe', Hte'.
  split; [exact Hg'|]. split; [|split; [|split; [|split; [|split; [|auto]]]]].
  - destruct gf, g; cbn; unfold gf_ok; [right|right|right|right]; discriminate.
  - eexists. rewrite Hfe'. f_equal. f_equal.
    destruct gf as [e1|], g as [r|]; cbn; unfold set_info.
    + now rewrite prod_info_nonempty.
    + destruct Hok as [?|?]; congruence.
    + reflexivity.
    + reflexivity.
  - eexists. rewrite Hte'. f_equal. f_equal.
    destruct g as [r|]; cbn; unfold set_info.
    + now rewrite prod_info_nonempty.
    + reflexivity.
  - intros j Hj. rewrite Hframe.
    + apply lookup_insert_ne, SEP_FP.
    + intros Heq. apply FP_STR_inj in Heq. contradiction.
    + apply FP_TDP.
  - intros d Hd. rewrite Hframe.
    + apply lookup_insert_ne, SEP_TDP.
    + apply not_eq_sym, FP_TDP.
    + intros Heq. apply TDP_STR_inj in Heq. contradiction.
Qed.

Lemma exposures_loop_cur (tot fp : string) (jt jf : nat) (es : list tree_exposure) :
  tot = TDP_STR jt -> fp = FP_STR jf ->
  forall (st st' : pstate) (g gf : option tree_exposure),
  for_each (exposure_step tot fp) es st = Val st' ->
  gstate st g -> gf_ok gf g ->
  cur st fp gf g -> cur st tot g g ->
  gstate st' (pick_first g es)
  /\ gf_ok (pick_first gf es) (pick_first g es)
  /\ cur st' fp (pick_first gf es) (pick_first g es)
  /\ cur st' tot (pick_first g es) (pick_first g es)
  /\ (forall j, j <> jf ->
        obset_products st' !! FP_STR j = obset_products st !! FP_STR j)
  /\ (forall d, d <> jt ->
        obset_products st' !! TDP_STR d = obset_products st !! TDP_STR d)
  /\ det_indx st' = det_indx st /\ filt_indx st' = filt_indx st.
Proof.
  intros Ht Hf. induction es as [|e es IH]; intros st st' g gf H Hg Hok Hcf Hct.
  - cbn in H. inversion H; subst.
    replace (pick_first g []) with g by (destruct g; reflexivity).
    replace (pick_first gf []) with gf by (destruct gf; reflexivity).
    auto 10.
  - cbn [for_each] in H. inv_bind H.
    destruct (exposure_step_cur _ _ _ _ _ _ _ _ _ Ht Hf Ha Hg Hok Hcf Hct)
      as (Hg1 & Hok1 & Hcf1 & Hct1 & Hfr1 & Htr1 & Hd1 & Hfi1).
    destruct (IH _ _ _ _ H Hg1 Hok1 Hcf1 Hct1)
      as (Hg2 & Hok2 & Hcf2 & Hct2 & Hfr2 & Htr2 & Hd2 & Hfi2).
    rewrite !(pick_first_app _ [e] es) in *. cbn [app] in *.
    repeat split; try assumption; try congruence.
    + intros j Hj. now rewrite Hfr2, Hfr1.
    + intros d Hd. now rewrite Htr2, Htr1.
Qed.

Lemma filter_step_cur (tot : string) (jt : nat) (st st' : pstate)
    (fg : string * list tree_exposure) (g : option tree_exposure)
    (donef : list (option (tree_exposure * tree_exposure))) :
  tot = TDP_STR jt ->
  filter_step tot st fg = Val st' ->
  gstate st g -> cur st tot g g -> fp_done st donef ->
  let g' := pick_first g (snd fg) in
  gstate st' g'
  /\ cur st' tot g' g'
  /\ fp_done st' (donef ++ [fp_item (hd_error (snd fg)) g'])
  /\ (forall d, d <> jt ->
        obset_products st' !! TDP_STR d = obset_products st !! TDP_STR d)
  /\ det_indx st' = det_indx st.
Proof.
  intros Ht H Hg [tf Hct] [Hlen Hdone]. unfold filter_step in H. inv_bind H.
  inversion H; subst st'; clear H.
  cbn [obset_products prev_det_indx det_indx filt_indx sep_indx filetype].
  eapply (exposures_loop_cur _ _ jt (filt_indx st) _ Ht eq_refl _ _ g None)
    in Ha.
  - destruct Ha as (Hg2 & Hok2 & Hcf2 & Hct2 & Hfr2 & Htr2 & Hd2 & Hfi2).
    cbn [obset_products prev_det_indx det_indx filt_indx sep_indx filetype]
      in *. split; [exact Hg2|]. split; [exact Hct2|].
    split; [|split; [|exact Hd2]].
    + split; [rewrite length_app; cbn; lia|].
      intros j e r Hj.
      destruct (Nat.lt_ge_cases j (length donef)) as [Hlt|Hge].
      * rewrite nth_error_app1 in Hj by exact Hlt.
        cbn [obset_products]. rewrite Hfr2 by lia.
        rewrite lookup_insert_ne
          by (intros Heq; apply FP_STR_inj in Heq; lia).
        eauto.
      * rewrite nth_error_app2 in Hj by exact Hge.
        destruct (j - length donef)%nat as [|m] eqn:Ej; cbn in Hj;
          [|destruct m; discriminate].
        assert (j = filt_indx st) as -> by lia.
        destruct Hcf2 as [files Hcf2]. cbn [obset_products].
        rewrite Hcf2. cbn.
        destruct (hd_error (snd fg)) as [e1|] eqn:E1;
          destruct (pick_first g (snd fg)) as [r1|] eqn:E2;
          cbn in Hj; inversion Hj; subst.
        replace (pick_first None (snd fg)) with (Some e) by (cbn; congruence).
        reflexivity.
    + intros d Hd. cbn [obset_products]. rewrite Htr2 by exact Hd.
      rewrite lookup_insert_ne by apply FP_TDP. reflexivity.
  - destruct g; exact Hg.
  - now left.
  - exists []. cbn. now rewrite lookup_insert_eq.
  - exists tf. cbn. rewrite lookup_insert_ne by (rewrite Ht; apply FP_TDP).
    exact Hct.
Qed.

Lemma fp_items_closed (g : option tree_exposure) (fgs : filt_tree) :
  fp_items g fgs
  = map (fun fg => fp_item (hd_error (snd fg))
                           (pick_first g (concat (map snd fgs)))) fgs.
Proof.
  revert g. induction fgs as [|fg fgs IH]; intros g; [reflexivity|].
  cbn [fp_items map concat]. f_equal.
  - destruct (snd fg) as [|e es]; [reflexivity|]. destruct g; reflexivity.
  - rewrite IH. apply map_ext. intros fg'. now rewrite pick_first_app.
Qed.

Lemma filters_loop_cur (tot : string) (jt : nat) (fgs : filt_tree) :
  tot = TDP_STR jt ->
  forall (st st' : pstate) (g : option tree_exposure)
         (donef : list (option (tree_exposure * tree_exposure))),
  for_each (filter_step tot) fgs st = Val st' ->
  gstate st g -> cur st tot g g -> fp_done st donef ->
  let g' := pick_first g (concat (map snd fgs)) in
  gstate st' g'
  /\ cur st' tot g' g'
  /\ fp_done st' (donef ++ fp_items g fgs)
  /\ (forall d, d <> jt ->
        obset_products st' !! TDP_STR d = obset_products st !! TDP_STR d)
  /\ det_indx st' = det_indx st.
Proof.
  intros Ht. induction fgs as [|fg fgs IH]; intros st st' g donef H Hg Hct Hfd.
  - cbn in H. inversion H; subst. cbn. rewrite app_nil_r.
    replace (pick_first g []) with g by (destruct g; reflexivity). auto.
  - cbn [for_each] in H. inv_bind H.
    destruct (filter_step_cur _ _ _ _ _ _ _ Ht Ha Hg Hct Hfd)
      as (Hg1 & Hct1 & Hfd1 & Htr1 & Hd1).
    destruct (IH _ _ _ _ H Hg1 Hct1 Hfd1) as (Hg2 & Hct2 & Hfd2 & Htr2 & Hd2).
    cbv zeta in *. cbn [map concat fp_items].
    rewrite pick_first_app in Hg2, Hct2.
    rewrite <- app_assoc in Hfd2. cbn [app] in Hfd2.
    repeat split; try apply Hfd2; try assumption; try congruence.
    intros d Hd. now rewrite Htr2, Htr1.
Qed.

Lemma detector_step_cur (st st' : pstate) (det : string * filt_tree)
    (donef : list (option (tree_exposure * tree_exposure)))
    (doned : list (option tree_exposure)) :
  detector_step st det = Val st' ->
  (prev_det_indx st <= det_indx st)%nat ->
  fp_done st donef -> td_done st doned ->
  (prev_det_indx st' <= det_indx st')%nat
  /\ fp_done st' (donef ++ filter_firsts [det])
  /\ td_done st' (doned ++ detector_firsts [det]).
Proof.
  intros H Hle [Hfl Hfd] [Hdl Hdd]. unfold detector_step in H. inv_bind H.
  inversion H; subst st'; clear H.
  cbn [obset_products prev_det_indx det_indx filt_indx sep_indx filetype].
  eapply (filters_loop_cur _ (det_indx st) _ eq_refl _ _ None donef) in Ha.
  - destruct Ha as (Hg & Hct & Hfd2 & Htr & Hd).
    cbv zeta in *. cbn [pick_first] in *.
    split; [eapply gstate_le, Hg|]. split.
    + unfold filter_firsts. cbn [flat_map]. rewrite app_nil_r.
      rewrite fp_items_closed in Hfd2. exact Hfd2.
    + cbn [obset_products prev_det_indx det_indx filt_indx sep_indx filetype]
        in *.
      unfold detector_firsts. cbn [map].
      split; [rewrite length_app; cbn [length det_indx]; lia|].
      intros d r Hdr.
      destruct (Nat.lt_ge_cases d (length doned)) as [Hlt|Hge].
      * rewrite nth_error_app1 in Hdr by exact Hlt.
        cbn [obset_products]. rewrite Htr by lia.
        rewrite lookup_insert_ne
          by (intros Heq; apply TDP_STR_inj in Heq; lia).
        eauto.
      * rewrite nth_error_app2 in Hdr by exact Hge.
        destruct (d - length doned)%nat as [|m] eqn:Ed; cbn in Hdr;
          [|destruct m; discriminate].
        assert (d = det_indx st) as -> by lia.
        destruct Hct as [files Hct]. cbn [obset_products].
        rewrite Hct. cbn.
        unfold first_exposure, group_exposures in Hdr.
        inversion Hdr as [Hr]. cbn [pick_first]. rewrite Hr. reflexivity.
  - cbn. lia.
  - exists []. cbn. now rewrite lookup_insert_eq.
  - split; [exact Hfl|]. intros j e r Hj. cbn.
    rewrite lookup_insert_ne by (apply not_eq_sym, FP_TDP). eauto.
Qed.

Lemma detectors_loop_cur (tree : det_tree) :
  forall (st st' : pstate)
         (donef : list (option (tree_exposure * tree_exposure)))
         (doned : list (option tree_exposure)),
  for_each detector_step tree st = Val st' ->
  (prev_det_indx st <= det_indx st)%nat ->
  fp_done st donef -> td_done st doned ->
  fp_done st' (donef ++ filter_firsts tree)
  /\ td_done st' (doned ++ detector_firsts tree).
Proof.
  induction tree as [|det tree IH]; intros st st' donef doned H Hle Hf Hd.
  - cbn in H. inversion H; subst. cbn. now rewrite !app_nil_r.
  - cbn [for_each] in H. inv_bind H.
    destruct (detector_step_cur _ _ _ _ _ Ha Hle Hf Hd) as (Hle1 & Hf1 & Hd1).
    destruct (IH _ _ _ _ H Hle1 Hf1 Hd1) as [Hf2 Hd2].
    unfold filter_firsts, detector_firsts in *. cbn [flat_map map] in *.
    rewrite app_nil_r in Hf2. rewrite <- !app_assoc in *. cbn [app] in *.
    split; assumption.
Qed.

Lemma length_lower (s : string) : String.length (lower s) = String.length s.
Proof. induction s as [|c s IH]; cbn; [reflexivity | now rewrite IH]. Qed.

Lemma length_substring_le (i m : nat) (s : string) :
  (String.length (String.substring i m s) <= m)%nat.
Proof.
  revert i m. induction s as [|c s IH]; intros [|i] [|m]; cbn; try lia.
  - specialize (IH 0%nat m). lia.
  - apply (IH i 0%nat).
  - apply (IH i (S m)).
Qed.

Lemma substring_full (s : string) :
  String.substring 0 (String.length s) s = s.
Proof. induction s as [|c s IH]; cbn; [reflexivity | now rewrite IH]. Qed.

Lemma endswith_short (suf s : string) :
  (String.length s <= String.length suf)%nat ->
  endswith suf s = String.eqb s suf.
Proof.
  intros Hle. unfold endswith.
  destruct (Nat.leb_spec (String.length suf) (String.length s)) as [H|H].
  - assert (E : String.length suf = String.length s) by lia.
    rewrite E, Nat.sub_diag, substring_full. reflexivity.
  - cbn [andb]. symmetry. apply String.eqb_neq. intros ->. lia.
Qed.

Lemma filetype_of_flt (name : string) :
  filetype_of name
  = (if String.eqb (lower (slice 10 13 name)) "flt" then "drz" else "drc").
Proof.
  unfold filetype_of. rewrite endswith_short; [reflexivity|].
  rewrite length_lower. unfold slice. apply length_substring_le.
Qed.

(** C5 (as amended).  Whenever the tree is parsed, every product info
    string of a detector group carries the file type of the group: the
    info string of each single exposure product is the lower-cased row
    info of its exposure followed by that file type, the info string
    of each filter product and of the total detection product is the
    one of its first exposure.  The file type is read from characters
    10 to 12 of the file name of the FIRST exposure of the detector
    group (the name is the second component of the exposure's pair):
    drz when they spell flt, drc otherwise. *)
Theorem C5_filetype_from_first_exposure (tree : det_tree)
    (products : gmap string prod_entry) (tdps : list TotalProduct) :
  parse_obset_tree tree = Val (products, tdps) ->
  (forall k e r,
     nth_error (exposures_with first_exposure tree) k = Some (e, Some r) ->
     products !! SEP_STR k
     = Some (mkEntry (lower (fst e ++ " " ++ filetype_of (snd r))) [snd e]))
  /\ (forall j e r,
        nth_error (filter_firsts tree) j = Some (Some (e, r)) ->
        info <$> products !! FP_STR j
        = Some (lower (fst e ++ " " ++ filetype_of (snd r))))
  /\ (forall d r,
        nth_error (detector_firsts tree) d = Some (Some r) ->
        info <$> products !! TDP_STR d
        = Some (lower (fst r ++ " " ++ filetype_of (snd r))))
  /\ (forall name,
        filetype_of name
        = (if String.eqb (lower (slice 10 13 name)) "flt"
           then "drz" else "drc")).
Proof.
  intros H. unfold parse_obset_tree in H. inv_bind H.
  inversion H; subst; clear H.
  split; [|split; [|split]].
  - intros k e r Hk.
    eapply (detectors_loop_inv tree parse_init a []) in Ha.
    + destruct Ha as [_ Hdone]. now apply Hdone.
    + cbn. lia.
    + split; [reflexivity|]. intros k' e' r' Hk'. destruct k'; discriminate.
  - intros j e r Hj.
    eapply (detectors_loop_cur tree parse_init a [] []) in Ha.
    + destruct Ha as [[_ Hdone] _]. now apply Hdone.
    + cbn. lia.
    + split; [reflexivity|]. intros j' e' r' Hj'. destruct j'; discriminate.
    + split; [reflexivity|]. intros d' r' Hd'. destruct d'; discriminate.
  - intros d r Hd.
    eapply (detectors_loop_cur tree parse_init a [] []) in Ha.
    + destruct Ha as [_ [_ Hdone]]. now apply Hdone.
    + cbn. lia.
    + split; [reflexivity|]. intros j' e' r' Hj'. destruct j'; discriminate.
    + split; [reflexivity|]. intros d' r' Hd'. destruct d'; discriminate.
  - apply filetype_of_flt.
Qed.

Lemma mixed_tree_parsed :
  parse_obset_tree mixed_tree = Val (mixed_products, mixed_tdps).
Proof. vm_compute. reflexivity. Qed.

Lemma C5_filetype_from_first_exposure_witness :
  mixed_products !! SEP_STR 1
  = Some (mkEntry
            (lower ("11665 06 ACS WFC JB4606C6Q F606W" ++ " "
                    ++ filetype_of "jb4606c5q_flt.fits"))
            ["jb4606c6q_flc.fits"])
  /\ info <$> mixed_products !! FP_STR 0
     = Some (lower ("11665 06 ACS WFC JB4606C5Q F606W" ++ " "
                    ++ filetype_of "jb4606c5q_flt.fits"))
  /\ info <$> mixed_products !! TDP_STR 0
     = Some (lower ("11665 06 ACS WFC JB4606C5Q F606W" ++ " "
                    ++ filetype_of "jb4606c5q_flt.fits")).
Proof.
  pose proof (C5_filetype_from_first_exposure mixed_tree
                mixed_products mixed_tdps mixed_tree_parsed)
    as (Hsep & Hfp & Htd & _).
  split; [|split].
  - exact (Hsep 1%nat
             ("11665 06 ACS WFC JB4606C6Q F606W", "jb4606c6q_flc.fits")
             ("11665 06 ACS WFC JB4606C5Q F606W", "jb4606c5q_flt.fits")
             eq_refl).
  - exact (Hfp 0%nat
             ("11665 06 ACS WFC JB4606C5Q F606W", "jb4606c5q_flt.fits")
             ("11665 06 ACS WFC JB4606C5Q F606W", "jb4606c5q_flt.fits")
             eq_refl).
  - exact (Htd 0%nat
             ("11665 06 ACS WFC JB4606C5Q F606W", "jb4606c5q_flt.fits")
             eq_refl).
Defined.

(** C5 as stated fails: in a detector group whose first exposure is an
    flt file and whose second is an flc file, the file type is not the
    one the second exposure's name gives. *)
Lemma C5_second_exposure_counterexample :
  ~ filetype_inferred_from second_exposure mixed_tree.
Proof.
  intros H.
  specialize (H _ _ mixed_tree_parsed 0%nat
                ("11665 06 ACS WFC JB4606C5Q F606W", "jb4606c5q_flt.fits")
                ("11665 06 ACS WFC JB4606C6Q F606W", "jb4606c6q_flc.fits")
                eq_refl).
  vm_compute in H. discriminate H.
Qed.

End ParseFacts.
